(** * The OpenOCD remote-bitbang engine of the [jtag_openocd] applet

    A shallow embedding of [JTAGOpenOCDSubtarget.elaborate]
    (software/glasgow/applet/interface/jtag_openocd/__init__.py): one clock
    tick of the gateware is a function from the registers and the sampled
    port values to the next registers and the combinational strobes. *)

From Stdlib Require Import ZArith List Bool Ascii String Lia.
Import ListNotations.

(** Lists are the default; string functions are written [String.f]. *)
Abbreviation length := List.length.
Local Open Scope Z_scope.

(** ** Bytes and command patterns *)

(** [ord c] is Python's [ord]: the code point of a one-byte character. *)
Definition ord (c : ascii) : Z := Z.of_N (N_of_ascii c).

(** Iterating a Python bytes literal ([*b"rstu"]) yields its byte values. *)
Fixpoint bytes_of (s : string) : list Z :=
  match s with
  | EmptyString => []
  | String c s' => ord c :: bytes_of s'
  end.

(** A [Case] arm of [m.Switch] given the bytes of a literal: it matches when
    the switch value equals one of them. *)
Definition Case (patterns : string) (v : Z) : bool :=
  existsb (Z.eqb v) (bytes_of patterns).

(** ** Configuration, registers and ports *)

(** The constructor arguments that reach [elaborate]; [has_srst_t] is
    [hasattr(self.pads, "srst_t")]. *)
Record config := {
  period_cyc : Z;
  us_cyc     : Z;
  has_srst_t : bool
}.

(** Every signal driven from the sync domain.  [srst_t_oe] and [srst_t_o]
    are the pad registers of lines 36-40. *)
Record regs := {
  timer     : Z;
  tck       : bool;
  tms       : bool;
  tdi       : bool;
  trst_o    : bool;
  srst_o    : bool;
  blink     : bool;
  srst_t_oe : bool;
  srst_t_o  : bool
}.

(** Values sampled during a tick: the read side of [out_fifo], the ready
    flag of [in_fifo] and the bus input [tdo]. *)
Record ports_in := {
  r_rdy  : bool;
  r_data : Z;
  w_rdy  : bool;
  tdo    : bool
}.

(** Strobes driven from the comb domain. *)
Record ports_out := {
  r_en   : bool;
  w_en   : bool;
  w_data : Z
}.

(** [timer = Signal(range(max(period_cyc, 1000 * us_cyc)))]: an unsigned
    signal just wide enough for the last element of the range (width 0 for
    an empty or one-element range). *)
Definition timer_limit (cfg : config) : Z :=
  Z.max (period_cyc cfg) (1000 * us_cyc cfg).

Definition timer_width (cfg : config) : Z := Z.log2_up (timer_limit cfg).

(** [timer.eq(v)]: the value is truncated to the width of the signal, so a
    negative constant wraps around. *)
Definition timer_eq (cfg : config) (v : Z) : Z := v mod 2 ^ timer_width cfg.

(** [srst_z] is tied to 0 in the comb domain. *)
Definition srst_z : bool := false.

(** Reset values: every register starts at 0. *)
Definition init : regs :=
  {| timer := 0; tck := false; tms := false; tdi := false;
     trst_o := false; srst_o := false; blink := false;
     srst_t_oe := false; srst_t_o := false |}.

(** Record updates, one per assignment target of the source. *)
Definition set_timer (v : Z) (st : regs) : regs :=
  {| timer := v; tck := tck st; tms := tms st; tdi := tdi st;
     trst_o := trst_o st; srst_o := srst_o st; blink := blink st;
     srst_t_oe := srst_t_oe st; srst_t_o := srst_t_o st |}.

(** [Cat(bus.tdi, bus.tms, bus.tck).eq(v)]: bit 0 to tdi, 1 to tms, 2 to tck. *)
Definition set_tdi_tms_tck (v : Z) (st : regs) : regs :=
  {| timer := timer st;
     tck := Z.testbit v 2; tms := Z.testbit v 1; tdi := Z.testbit v 0;
     trst_o := trst_o st; srst_o := srst_o st; blink := blink st;
     srst_t_oe := srst_t_oe st; srst_t_o := srst_t_o st |}.

(** [Cat(self.srst_o, bus.trst_o).eq(v)]: bit 0 to srst_o, bit 1 to trst_o. *)
Definition set_srst_trst (v : Z) (st : regs) : regs :=
  {| timer := timer st; tck := tck st; tms := tms st; tdi := tdi st;
     trst_o := Z.testbit v 1; srst_o := Z.testbit v 0; blink := blink st;
     srst_t_oe := srst_t_oe st; srst_t_o := srst_t_o st |}.

Definition set_blink (v : bool) (st : regs) : regs :=
  {| timer := timer st; tck := tck st; tms := tms st; tdi := tdi st;
     trst_o := trst_o st; srst_o := srst_o st; blink := v;
     srst_t_oe := srst_t_oe st; srst_t_o := srst_t_o st |}.

Definition set_srst_t (oe o : bool) (st : regs) : regs :=
  {| timer := timer st; tck := tck st; tms := tms st; tdi := tdi st;
     trst_o := trst_o st; srst_o := srst_o st; blink := blink st;
     srst_t_oe := oe; srst_t_o := o |}.

(** ** One clock tick *)

(** Lines 36-40: the pad registers follow [srst_z] and [srst_o] of the
    current cycle, when the pad exists. *)
Definition pads_sync (cfg : config) (st nxt : regs) : regs :=
  if has_srst_t cfg
  then set_srst_t (negb srst_z) (negb (srst_o st)) nxt
  else nxt.

(** Lines 49-81, sync domain: the registers after the clock edge.  Right-hand
    sides read the registers and ports of the current cycle. *)
Definition elaborate_sync (cfg : config) (st : regs) (p : ports_in) : regs :=
  pads_sync cfg st
    (if negb (timer st =? 0) then
       set_timer (timer_eq cfg (timer st - 1)) st
     else if r_rdy p then
       if Case "01234567" (r_data p) then
         set_timer (timer_eq cfg (period_cyc cfg - 1))
           (set_tdi_tms_tck (r_data p) st)
       else if Case "rstu" (r_data p) then
         set_srst_trst (r_data p - ord "r") st
       else if Case "R" (r_data p) then
         st
       else if Case "Bb" (r_data p) then
         set_blink (negb (Z.testbit (r_data p) 5)) st
       else if Case "Z" (r_data p) then
         set_timer (timer_eq cfg (1000 * us_cyc cfg - 1)) st
       else if Case "z" (r_data p) then
         set_timer (timer_eq cfg (us_cyc cfg - 1)) st
       else if Case "Q" (r_data p) then
         st
       else
         st
     else st).

(** Lines 49-81, comb domain: strobes default to 0, later assignments win. *)
Definition elaborate_comb (st : regs) (p : ports_in) : ports_out :=
  let idle := {| r_en := false; w_en := false; w_data := 0 |} in
  if negb (timer st =? 0) then idle
  else if r_rdy p then
    if Case "01234567" (r_data p) then
      {| r_en := true; w_en := false; w_data := 0 |}
    else if Case "rstu" (r_data p) then
      {| r_en := true; w_en := false; w_data := 0 |}
    else if Case "R" (r_data p) then
      {| r_en := w_rdy p; w_en := true;
         w_data := Z.lor (ord "0") (Z.b2z (tdo p)) |}
    else if Case "Bb" (r_data p) then
      {| r_en := true; w_en := false; w_data := 0 |}
    else if Case "Z" (r_data p) then
      {| r_en := true; w_en := false; w_data := 0 |}
    else if Case "z" (r_data p) then
      {| r_en := true; w_en := false; w_data := 0 |}
    else if Case "Q" (r_data p) then
      {| r_en := true; w_en := false; w_data := 0 |}
    else
      {| r_en := false; w_en := false; w_data := 0 |}
  else idle.

(** ** The engine between its two FIFOs *)

(** Modelled from the spec: the FIFO objects handed to the constructor are
    not part of this file.  The command stream is an ordered queue whose
    head is presented on [r_data] while it is non-empty ("ready to read");
    the sample sink takes a byte on a tick where it is ready and the engine
    strobes a write. *)
Record sys := {
  eng  : regs;
  inq  : list Z;
  outq : list Z
}.

(** What the surroundings do during one tick: whether the sink has space,
    the level on the TDO pin, and the command bytes that arrive. *)
Record env := {
  sink_rdy : bool;
  tdo_pin  : bool;
  arrive   : list Z
}.

Definition ports_of (s : sys) (e : env) : ports_in :=
  {| r_rdy  := match inq s with [] => false | _ :: _ => true end;
     r_data := hd 0 (inq s);
     w_rdy  := sink_rdy e;
     tdo    := tdo_pin e |}.

(** The byte taken from the command stream on this tick, if any. *)
Definition took (s : sys) (e : env) : option Z :=
  let p := ports_of s e in
  if r_en (elaborate_comb (eng s) p) && r_rdy p then Some (r_data p) else None.

(** The byte handed to the sample sink on this tick, if any. *)
Definition gave (s : sys) (e : env) : option Z :=
  let p := ports_of s e in
  let c := elaborate_comb (eng s) p in
  if w_en c && w_rdy p then Some (w_data c) else None.

Definition tick (cfg : config) (s : sys) (e : env) : sys :=
  {| eng  := elaborate_sync cfg (eng s) (ports_of s e);
     inq  := match took s e with
             | Some _ => tl (inq s)
             | None => inq s
             end ++ arrive e;
     outq := match gave s e with
             | Some b => outq s ++ [b]
             | None => outq s
             end |}.

Fixpoint run (cfg : config) (s : sys) (es : list env) : sys :=
  match es with
  | [] => s
  | e :: es' => run cfg (tick cfg s e) es'
  end.

(** Per-tick observations of a run: the byte consumed (with the TDO level of
    that tick) and the byte produced. *)
Fixpoint trace (cfg : config) (s : sys) (es : list env)
  : list (option (Z * bool) * option Z) :=
  match es with
  | [] => []
  | e :: es' =>
      (option_map (fun b => (b, tdo_pin e)) (took s e), gave s e)
        :: trace cfg (tick cfg s e) es'
  end.

(** ** Observations used by the statements *)

(** The seven registers the command engine owns: the timer, the three JTAG
    outputs, the reset pair and the blink bit. *)
Definition core (st : regs) : Z * bool * bool * bool * bool * bool * bool :=
  (timer st, tck st, tms st, tdi st, trst_o st, srst_o st, blink st).

(** The six driven signal bits, without the timer. *)
Definition signals (st : regs) : bool * bool * bool * bool * bool * bool :=
  (tck st, tms st, tdi st, trst_o st, srst_o st, blink st).

(** The byte of a sample answer: [b"0"[0] | Cat(bus.tdo)]. *)
Definition sample_byte (d : bool) : Z := Z.lor (ord "0") (Z.b2z d).

(** A byte with an arm of its own in the switch. *)
Definition known (b : Z) : bool :=
  Case "01234567" b || Case "rstu" b || Case "R" b || Case "Bb" b
  || Case "Z" b || Case "z" b || Case "Q" b.

(** A tick on which nothing is consumed and nothing is produced. *)
Definition quiet (o : option (Z * bool) * option Z) : Prop :=
  fst o = None /\ snd o = None.

(** The bytes consumed during a run, in order. *)
Definition consumed (tr : list (option (Z * bool) * option Z)) : list Z :=
  flat_map (fun o => match fst o with
                     | Some (b, _) => [b]
                     | None => []
                     end) tr.

(** One answer per consumed ['R'], carrying the TDO level of its tick. *)
Definition answers (tr : list (option (Z * bool) * option Z)) : list Z :=
  flat_map (fun o => match fst o with
                     | Some (b, d) => if Case "R" b then [sample_byte d] else []
                     | None => []
                     end) tr.

(** All bytes that arrive during a run. *)
Definition arrivals (es : list env) : list Z := flat_map arrive es.

(** The register holds a value of its declared width. *)
Definition timer_fits (cfg : config) (st : regs) : Prop :=
  0 <= timer st < 2 ^ timer_width cfg.

(** The range the signal is declared with. *)
Definition timer_in_range (cfg : config) (st : regs) : Prop :=
  0 <= timer st <= timer_limit cfg - 1.

(** The match of a pattern against the byte consumed on a tick, if any. *)
Definition took_in (patterns : string) (ob : option Z) : bool :=
  match ob with
  | Some b => Case patterns b
  | None => false
  end.

(** Sleep length selected by a sleep command. *)
Definition sleep_cyc (cfg : config) (b : Z) : Z :=
  if Case "Z" b then 1000 * us_cyc cfg else us_cyc cfg.

(** A byte the engine takes as soon as it is ready: any known command,
    except that a sample also needs room in the sink. *)
Definition acceptable (b : Z) (e : env) : bool :=
  known b && (negb (Case "R" b) || sink_rdy e).

(** [JTAGOpenOCDApplet.build]: the cycle counts handed to the subtarget, from
    the system clock in Hz and the [--frequency] argument in kHz; [//] is
    floor division, as [Z.div] is.  A frequency of 0 raises in the source
    and is not covered here. *)
Definition build (sys_clk_freq frequency : Z) (srst : bool) : config :=
  {| period_cyc := sys_clk_freq / (frequency * 1000);
     us_cyc     := sys_clk_freq / 1000000;
     has_srst_t := srst |}.

(** The same surroundings with another level on the TDO pin. *)
Definition with_tdo (d : bool) (e : env) : env :=
  {| sink_rdy := sink_rdy e; tdo_pin := d; arrive := arrive e |}.

(** Concrete surroundings used to exercise the statements. *)
Definition demo_cfg : config :=
  {| period_cyc := 3; us_cyc := 2; has_srst_t := true |}.

Definition demo_env (ready d : bool) : env :=
  {| sink_rdy := ready; tdo_pin := d; arrive := [] |}.

Definition demo_sys (t : Z) (q : list Z) : sys :=
  {| eng := set_timer t init; inq := q; outq := [] |}.

(** ** The engine as seen by its commands *)

(** The sync assignments of one consumed byte to the signals, timer apart:
    the arms of the switch that write [tdi]/[tms]/[tck], the reset pair or
    [blink]; every other arm leaves the signals alone. *)
Definition effect (st : regs) (b : Z) : regs :=
  if Case "01234567" b then set_tdi_tms_tck b st
  else if Case "rstu" b then set_srst_trst (b - ord "r") st
  else if Case "Bb" b then set_blink (negb (Z.testbit b 5)) st
  else st.

(** The ticks one consumed byte occupies: the tick that consumes it and the
    countdown it arms. *)
Definition cost (cfg : config) (b : Z) : Z :=
  if Case "01234567" b then period_cyc cfg
  else if Case "Z" b then 1000 * us_cyc cfg
  else if Case "z" b then us_cyc cfg
  else 1.

Definition script_cost (cfg : config) (ws : list Z) : Z :=
  fold_right (fun b acc => cost cfg b + acc) 0 ws.

(** The system at reset with [q] waiting in the command stream. *)
Definition reset (q : list Z) : sys :=
  {| eng := init; inq := q; outq := [] |}.

(** ** The forwarding loops of [interact] *)

(** What an awaited call does to the coroutine awaiting it: it returns
    (with a chunk, for a receive), or raises [asyncio.CancelledError], or
    raises anything else. *)
Inductive outcome :=
  | Returns (data : list Z)
  | CancelledError
  | OtherError.

(** The awaits of [forward_out], in program order. *)
Inductive out_call :=
  | EndpointRecv
  | IfaceWrite (data : list Z)
  | IfaceFlush.

(** The awaits of [forward_in], in program order. *)
Inductive in_call :=
  | IfaceRead
  | EndpointSend (data : list Z).

(** A loop is suspended in its next await, or has ended with the exception
    it did not catch. *)
Inductive loop (call : Type) :=
  | Awaiting (c : call)
  | Failed.
Arguments Awaiting {call} c.
Arguments Failed {call}.

(** [forward_out], resumed with the outcome of the await it is suspended
    in: [recv], then [write], then [flush], then around the [while True];
    [except asyncio.CancelledError: pass] falls through to the next
    iteration; any other exception leaves the loop. *)
Definition forward_out (c : out_call) (o : outcome) : loop out_call :=
  match o with
  | OtherError => Failed
  | CancelledError => Awaiting EndpointRecv
  | Returns d =>
      match c with
      | EndpointRecv => Awaiting (IfaceWrite d)
      | IfaceWrite _ => Awaiting IfaceFlush
      | IfaceFlush => Awaiting EndpointRecv
      end
  end.

(** [forward_in], likewise: [read], then [send], then around. *)
Definition forward_in (c : in_call) (o : outcome) : loop in_call :=
  match o with
  | OtherError => Failed
  | CancelledError => Awaiting IfaceRead
  | Returns d =>
      match c with
      | IfaceRead => Awaiting (EndpointSend d)
      | EndpointSend _ => Awaiting IfaceRead
      end
  end.

(** A loop driven by the outcomes of its successive awaits: the calls it
    makes, in order, and where it is afterwards.  Outcomes left over once
    the loop has failed are never asked for. *)
Fixpoint drive {call : Type} (resume : call -> outcome -> loop call)
    (st : loop call) (os : list outcome) : list (call * outcome) * loop call :=
  match st, os with
  | Awaiting c, o :: os' =>
      let (log, st') := drive resume (resume c o) os' in
      ((c, o) :: log, st')
  | _, _ => ([], st)
  end.

(** The chunks a receive or read returned. *)
Definition out_received (log : list (out_call * outcome)) : list (list Z) :=
  flat_map (fun co => match co with
                      | (EndpointRecv, Returns d) => [d]
                      | _ => []
                      end) log.

(** The chunks handed to [iface.write]. *)
Definition out_written (log : list (out_call * outcome)) : list (list Z) :=
  flat_map (fun co => match fst co with
                      | IfaceWrite d => [d]
                      | _ => []
                      end) log.

(** The writes that returned, and the flushes called. *)
Definition out_write_done (log : list (out_call * outcome)) : nat :=
  List.length (filter (fun co => match co with
                                 | (IfaceWrite _, Returns _) => true
                                 | _ => false
                                 end) log).

Definition out_flushes (log : list (out_call * outcome)) : nat :=
  List.length (filter (fun co => match fst co with
                                 | IfaceFlush => true
                                 | _ => false
                                 end) log).

Definition in_received (log : list (in_call * outcome)) : list (list Z) :=
  flat_map (fun co => match co with
                      | (IfaceRead, Returns d) => [d]
                      | _ => []
                      end) log.

Definition in_sent (log : list (in_call * outcome)) : list (list Z) :=
  flat_map (fun co => match fst co with
                      | EndpointSend d => [d]
                      | _ => []
                      end) log.

(** The chunk a suspended loop is about to pass on, if any. *)
Definition out_pending (st : loop out_call) : list (list Z) :=
  match st with
  | Awaiting (IfaceWrite d) => [d]
  | _ => []
  end.

Definition in_pending (st : loop in_call) : list (list Z) :=
  match st with
  | Awaiting (EndpointSend d) => [d]
  | _ => []
  end.

Definition is_failed {call : Type} (st : loop call) : bool :=
  match st with
  | Failed => true
  | Awaiting _ => false
  end.

Definition is_error (o : outcome) : bool :=
  match o with
  | OtherError => true
  | _ => false
  end.

(** The outcomes up to and including the first that is neither a return
    nor a cancellation. *)
Fixpoint upto_error (os : list outcome) : list outcome :=
  match os with
  | [] => []
  | o :: os' => o :: (if is_error o then [] else upto_error os')
  end.

(** One for a loop suspended in [iface.flush]. *)
Definition out_flush_due (st : loop out_call) : nat :=
  match st with
  | Awaiting IfaceFlush => 1
  | _ => 0
  end.

(** ** Decoding lemmas *)

Lemma Case_In (pat : string) (b : Z) :
  Case pat b = true -> In b (bytes_of pat).
Proof.
  unfold Case. rewrite existsb_exists.
  intros [x [Hin Heq]]. apply Z.eqb_eq in Heq. now subst.
Qed.

Lemma Case_not_In (pat : string) (b : Z) :
  Case pat b = false -> ~ In b (bytes_of pat).
Proof.
  intros Hc Hin.
  assert (Case pat b = true) as Ht.
  { unfold Case. apply existsb_exists. exists b. split; [assumption|].
    apply Z.eqb_refl. }
  congruence.
Qed.

(** Replace every [ord c] of a literal character by its value. *)
Ltac ords :=
  repeat match goal with
  | H : context [ord ?c] |- _ =>
      let v := eval vm_compute in (ord c) in change (ord c) with v in H
  | |- context [ord ?c] =>
      let v := eval vm_compute in (ord c) in change (ord c) with v
  end.

(** Settle [Case pat b] from the arithmetic facts known about [b]. *)
Ltac decide_case pat b :=
  let E := fresh "E" in
  destruct (Case pat b) eqn:E;
  [ apply Case_In in E; vm_compute in E
  | apply Case_not_In in E; vm_compute in E ];
  try (exfalso; lia).

Ltac decide_cases b :=
  decide_case "01234567"%string b; decide_case "rstu"%string b;
  decide_case "R"%string b; decide_case "Bb"%string b;
  decide_case "Z"%string b; decide_case "z"%string b;
  decide_case "Q"%string b.

Lemma pads_sync_core (cfg : config) (st nxt : regs) :
  core (pads_sync cfg st nxt) = core nxt.
Proof. unfold pads_sync. now destruct (has_srst_t cfg). Qed.

Lemma core_timer (a b : regs) : core a = core b -> timer a = timer b.
Proof. unfold core. intros H. now inversion H. Qed.

Lemma core_signals (a b : regs) : core a = core b -> signals a = signals b.
Proof. unfold core, signals. intros H. now inversion H. Qed.

Lemma pads_sync_signals (cfg : config) (st nxt : regs) :
  signals (pads_sync cfg st nxt) = signals nxt.
Proof. apply core_signals, pads_sync_core. Qed.

Lemma pads_sync_timer (cfg : config) (st nxt : regs) :
  timer (pads_sync cfg st nxt) = timer nxt.
Proof. apply core_timer, pads_sync_core. Qed.

Lemma timer_eq_small (cfg : config) (v : Z) :
  0 <= v < 2 ^ timer_width cfg -> timer_eq cfg v = v.
Proof. intros H. unfold timer_eq. now apply Z.mod_small. Qed.

Lemma limit_le_pow (cfg : config) : timer_limit cfg <= 2 ^ timer_width cfg.
Proof.
  unfold timer_width.
  destruct (Z_lt_le_dec 0 (timer_limit cfg)) as [Hpos | Hle].
  - destruct (Z.eq_dec (timer_limit cfg) 1) as [-> | Hne].
    + now vm_compute.
    + apply Z.log2_up_spec. lia.
  - pose proof (Z.pow_nonneg 2 (Z.log2_up (timer_limit cfg))). lia.
Qed.

(** ** What one tick does, by the situation at its start *)

Section Tick.

Variable cfg : config.
Variables (s : sys) (e : env).

(** Countdown: the timer is not yet zero. *)
Lemma tick_countdown :
  timer (eng s) <> 0 ->
  took s e = None /\ gave s e = None /\
  tick cfg s e =
    {| eng  := pads_sync cfg (eng s)
                 (set_timer (timer_eq cfg (timer (eng s) - 1)) (eng s));
       inq  := inq s ++ arrive e;
       outq := outq s |}.
Proof.
  intros Hnz. apply Z.eqb_neq in Hnz.
  assert (took s e = None) as Ht
    by (unfold took, elaborate_comb; now rewrite Hnz).
  assert (gave s e = None) as Hg
    by (unfold gave, elaborate_comb; now rewrite Hnz).
  repeat split; try assumption.
  unfold tick. rewrite Ht, Hg. unfold elaborate_sync. now rewrite Hnz.
Qed.

(** Idle: ready, but the command stream is empty. *)
Lemma tick_idle :
  timer (eng s) = 0 -> inq s = [] ->
  took s e = None /\ gave s e = None /\
  tick cfg s e =
    {| eng  := pads_sync cfg (eng s) (eng s);
       inq  := arrive e;
       outq := outq s |}.
Proof.
  intros Hz Hq.
  assert (took s e = None) as Ht
    by (unfold took, elaborate_comb, ports_of; now rewrite Hz, Hq).
  assert (gave s e = None) as Hg
    by (unfold gave, elaborate_comb, ports_of; now rewrite Hz, Hq).
  repeat split; try assumption.
  unfold tick. rewrite Ht, Hg. unfold elaborate_sync, ports_of.
  now rewrite Hz, Hq.
Qed.

Variables (b : Z) (rest : list Z).
Hypothesis Hready : timer (eng s) = 0.
Hypothesis Hhead : inq s = b :: rest.

(** Unfold a tick that finds [b] at the head of the stream with the timer at
    zero, and settle every arm of the switch from what is known of [b]. *)
Ltac at_head :=
  unfold tick, took, gave, elaborate_sync, elaborate_comb, ports_of;
  rewrite Hready, Hhead; cbn [hd tl r_rdy r_data w_rdy tdo Z.eqb negb];
  decide_cases b; cbn [r_en w_en w_data andb]; try reflexivity.

Lemma tick_write :
  ord "0" <= b <= ord "7" ->
  took s e = Some b /\ gave s e = None /\
  tick cfg s e =
    {| eng  := pads_sync cfg (eng s)
                 (set_timer (timer_eq cfg (period_cyc cfg - 1))
                    (set_tdi_tms_tck b (eng s)));
       inq  := rest ++ arrive e;
       outq := outq s |}.
Proof. intros Hb. ords. repeat split; at_head. Qed.

Lemma tick_reset :
  ord "r" <= b <= ord "u" ->
  took s e = Some b /\ gave s e = None /\
  tick cfg s e =
    {| eng  := pads_sync cfg (eng s) (set_srst_trst (b - ord "r") (eng s));
       inq  := rest ++ arrive e;
       outq := outq s |}.
Proof. intros Hb. ords. repeat split; at_head. Qed.

Lemma tick_sample_ready :
  b = ord "R" -> sink_rdy e = true ->
  took s e = Some b /\ gave s e = Some (sample_byte (tdo_pin e)) /\
  tick cfg s e =
    {| eng  := pads_sync cfg (eng s) (eng s);
       inq  := rest ++ arrive e;
       outq := outq s ++ [sample_byte (tdo_pin e)] |}.
Proof.
  intros Hb Hs. ords.
  repeat split; at_head; rewrite Hs; reflexivity.
Qed.

Lemma tick_sample_stalled :
  b = ord "R" -> sink_rdy e = false ->
  took s e = None /\ gave s e = None /\
  tick cfg s e =
    {| eng  := pads_sync cfg (eng s) (eng s);
       inq  := (b :: rest) ++ arrive e;
       outq := outq s |}.
Proof.
  intros Hb Hs. ords.
  repeat split; at_head; rewrite Hs; reflexivity.
Qed.

Lemma tick_blink :
  b = ord "B" \/ b = ord "b" ->
  took s e = Some b /\ gave s e = None /\
  tick cfg s e =
    {| eng  := pads_sync cfg (eng s)
                 (set_blink (negb (Z.testbit b 5)) (eng s));
       inq  := rest ++ arrive e;
       outq := outq s |}.
Proof. intros Hb. ords. repeat split; at_head. Qed.

Lemma tick_sleep :
  b = ord "Z" \/ b = ord "z" ->
  took s e = Some b /\ gave s e = None /\
  tick cfg s e =
    {| eng  := pads_sync cfg (eng s)
                 (set_timer (timer_eq cfg (sleep_cyc cfg b - 1)) (eng s));
       inq  := rest ++ arrive e;
       outq := outq s |}.
Proof.
  intros Hb. ords. unfold sleep_cyc.
  repeat split; at_head.
Qed.

Lemma tick_quit :
  b = ord "Q" ->
  took s e = Some b /\ gave s e = None /\
  tick cfg s e =
    {| eng  := pads_sync cfg (eng s) (eng s);
       inq  := rest ++ arrive e;
       outq := outq s |}.
Proof. intros Hb. ords. repeat split; at_head. Qed.

Lemma tick_unknown :
  known b = false ->
  took s e = None /\ gave s e = None /\
  tick cfg s e =
    {| eng  := pads_sync cfg (eng s) (eng s);
       inq  := (b :: rest) ++ arrive e;
       outq := outq s |}.
Proof.
  intros Hb. unfold known in Hb. rewrite !orb_false_iff in Hb.
  destruct Hb as [[[[[[H1 H2] H3] H4] H5] H6] H7].
  unfold tick, took, gave, elaborate_sync, elaborate_comb, ports_of.
  rewrite Hready, Hhead. cbn [hd tl r_rdy r_data w_rdy tdo Z.eqb negb].
  repeat match goal with H : Case _ b = false |- _ => rewrite H; clear H end.
  cbn [r_en w_en w_data andb]. repeat split.
Qed.

End Tick.

(** ** Facts that hold on every tick *)

(** Consider every situation a tick can start in. *)
Ltac any_tick s e :=
  unfold tick, took, gave, elaborate_sync, elaborate_comb, ports_of;
  destruct (timer (eng s) =? 0) eqn:?;
  destruct (inq s) as [| ?b ?rest] eqn:?;
  cbn [hd tl r_rdy r_data w_rdy tdo negb r_en w_en w_data andb];
  try match goal with
      | _ : inq s = ?b :: _ |- _ => decide_cases b
      end;
  cbn [r_en w_en w_data andb];
  destruct (sink_rdy e);
  cbn [r_en w_en w_data andb took_in eng inq outq].

(** A byte is produced exactly when an ['R'] is consumed, and a consumed
    byte is the head of the stream. *)
Lemma tick_io (s : sys) (e : env) :
  gave s e = match took s e with
             | Some b => if Case "R" b then Some (sample_byte (tdo_pin e))
                         else None
             | None => None
             end
  /\ (forall b, took s e = Some b -> inq s = b :: tl (inq s)).
Proof.
  split.
  - any_tick s e; try reflexivity;
      repeat match goal with H : Case _ _ = _ |- _ => rewrite H end;
      try reflexivity;
      match goal with |- context [Case "R" ?b] => decide_case "R"%string b end;
      reflexivity.
  - intros b. any_tick s e; intros H; inversion H; reflexivity.
Qed.

Lemma tick_pads (cfg : config) (s : sys) (e : env) :
  exists nxt, eng (tick cfg s e) = pads_sync cfg (eng s) nxt.
Proof. unfold tick, elaborate_sync. cbn [eng]. eexists. reflexivity. Qed.

(** ** Runs *)

(** The streams of a run: the bytes consumed are a prefix of what was queued
    and what arrived, and the output grows by the answers, in order. *)
Lemma run_streams (cfg : config) (es : list env) (s : sys) :
  inq s ++ arrivals es = consumed (trace cfg s es) ++ inq (run cfg s es)
  /\ outq (run cfg s es) = outq s ++ answers (trace cfg s es).
Proof.
  revert s. induction es as [| e es IH]; intros s.
  - cbn. now rewrite !app_nil_r.
  - destruct (IH (tick cfg s e)) as [IHi IHo].
    destruct (tick_io s e) as [Hg Hh].
    change (run cfg s (e :: es)) with (run cfg (tick cfg s e) es).
    change (arrivals (e :: es)) with (arrive e ++ arrivals es).
    rewrite IHo. clear IHo.
    assert (inq s ++ arrive e
            = match took s e with Some b => [b] | None => [] end
              ++ inq (tick cfg s e)) as Hi.
    { unfold tick. cbn [inq]. destruct (took s e) as [b |] eqn:Ht.
      - rewrite (Hh b eq_refl) at 1. reflexivity.
      - reflexivity. }
    assert (outq (tick cfg s e)
            = outq s ++ match took s e with
                        | Some b => if Case "R" b
                                    then [sample_byte (tdo_pin e)] else []
                        | None => []
                        end) as Ho.
    { unfold tick. cbn [outq]. rewrite Hg.
      destruct (took s e) as [b |]; [| now rewrite app_nil_r].
      destruct (Case "R" b); [reflexivity | now rewrite app_nil_r]. }
    rewrite Ho. rewrite app_assoc, Hi, <- !app_assoc, IHi.
    cbn [trace consumed answers flat_map fst].
    destruct (took s e) as [b |]; cbn [option_map]; rewrite <- !app_assoc;
      split; reflexivity.
Qed.

(** While the timer runs, the engine only counts: [n] ticks take the timer
    down by [n] and leave the signals and both streams alone. *)
Lemma run_countdown (cfg : config) (es : list env) (s : sys) :
  timer_fits cfg (eng s) ->
  Z.of_nat (length es) <= timer (eng s) ->
  Forall quiet (trace cfg s es)
  /\ timer (eng (run cfg s es)) = timer (eng s) - Z.of_nat (length es)
  /\ signals (eng (run cfg s es)) = signals (eng s)
  /\ inq (run cfg s es) = inq s ++ arrivals es
  /\ outq (run cfg s es) = outq s.
Proof.
  revert s. induction es as [| e es IH]; intros s Hfit Hlen.
  - cbn. rewrite app_nil_r. repeat split; [constructor | lia].
  - cbn [length] in Hlen. rewrite Nat2Z.inj_succ in Hlen.
    assert (timer (eng s) <> 0) as Hnz by lia.
    destruct (tick_countdown cfg s e Hnz) as (Ht & Hg & Hs).
    assert (timer_eq cfg (timer (eng s) - 1) = timer (eng s) - 1) as Hdec
      by (apply timer_eq_small; unfold timer_fits in Hfit; lia).
    assert (core (eng (tick cfg s e))
            = core (set_timer (timer (eng s) - 1) (eng s))) as Hc
      by (rewrite Hs; cbn [eng]; rewrite pads_sync_core, Hdec; reflexivity).
    pose proof (core_timer _ _ Hc) as Htm. cbn [set_timer timer] in Htm.
    pose proof (core_signals _ _ Hc) as Hsg.
    destruct (IH (tick cfg s e)) as (Hq & Ht' & Hs' & Hi' & Ho').
    { unfold timer_fits in *. rewrite Htm. lia. }
    { rewrite Htm. lia. }
    cbn [run trace length]. rewrite Nat2Z.inj_succ.
    repeat split.
    + constructor; [| exact Hq]. unfold quiet. cbn [fst snd].
      now rewrite Ht, Hg.
    + rewrite Ht', Htm. lia.
    + rewrite Hs', Hsg. reflexivity.
    + rewrite Hi', Hs. cbn [inq arrivals flat_map].
      now rewrite <- app_assoc.
    + rewrite Ho', Hs. reflexivity.
Qed.

Lemma ready_takes (s : sys) (e : env) (b : Z) (rest : list Z) :
  timer (eng s) = 0 -> inq s = b :: rest -> acceptable b e = true ->
  took s e = Some b.
Proof.
  intros Hz Hq Ha. unfold acceptable, known in Ha.
  unfold took, elaborate_comb, ports_of. rewrite Hz, Hq.
  cbn [hd r_rdy r_data w_rdy Z.eqb negb].
  destruct (Case "01234567" b); [reflexivity|].
  destruct (Case "rstu" b); [reflexivity|].
  destruct (Case "R" b).
  { cbn in Ha. rewrite Ha. reflexivity. }
  destruct (Case "Bb" b); [reflexivity|].
  destruct (Case "Z" b); [reflexivity|].
  destruct (Case "z" b); [reflexivity|].
  destruct (Case "Q" b); [reflexivity|].
  discriminate Ha.
Qed.

Lemma not_listed_unknown (b : Z) :
  ~ In b (bytes_of "01234567rstuRBbZzQ") -> known b = false.
Proof.
  intros Hn. vm_compute in Hn. unfold known.
  decide_cases b; try reflexivity; exfalso; apply Hn; lia.
Qed.

(** The register always holds a value of its width. *)
Lemma tick_timer_fits (cfg : config) (s : sys) (e : env) :
  timer_fits cfg (eng s) -> timer_fits cfg (eng (tick cfg s e)).
Proof.
  intros Hfit. destruct (tick_pads cfg s e) as [nxt Hn].
  assert (forall v, 0 <= timer_eq cfg v < 2 ^ timer_width cfg) as Hmod.
  { intros v. unfold timer_eq. apply Z.mod_pos_bound.
    apply Z.pow_pos_nonneg; [lia | apply Z.log2_up_nonneg]. }
  unfold timer_fits.
  replace (timer (eng (tick cfg s e)))
    with (timer (elaborate_sync cfg (eng s) (ports_of s e))) by reflexivity.
  unfold elaborate_sync.
  rewrite (core_timer _ _ (pads_sync_core cfg _ _)).
  repeat match goal with
         | |- context [if ?c then _ else _] => destruct c
         end; cbn [timer set_timer set_tdi_tms_tck set_srst_trst set_blink];
    auto.
Qed.

(** With at least one cycle per period and per microsecond, every value
    the timer is armed with lies in the declared range, and a tick keeps the
    timer there. *)
Lemma tick_timer_in_range (cfg : config) (s : sys) (e : env) :
  1 <= period_cyc cfg -> 1 <= us_cyc cfg ->
  timer_in_range cfg (eng s) -> timer_in_range cfg (eng (tick cfg s e)).
Proof.
  intros Hp Hu Hin. pose proof (limit_le_pow cfg) as Hpow.
  assert (forall v, 0 <= v <= timer_limit cfg - 1 -> timer_eq cfg v = v) as Harm
    by (intros v Hv; apply timer_eq_small; lia).
  assert (period_cyc cfg <= timer_limit cfg /\ 1000 * us_cyc cfg <= timer_limit cfg)
    as [Hlp Hlu] by (unfold timer_limit; lia).
  unfold timer_in_range in *.
  replace (timer (eng (tick cfg s e)))
    with (timer (elaborate_sync cfg (eng s) (ports_of s e))) by reflexivity.
  unfold elaborate_sync.
  rewrite (core_timer _ _ (pads_sync_core cfg _ _)).
  destruct (timer (eng s) =? 0) eqn:Hz; cbn [negb].
  - repeat match goal with
           | |- context [if ?c then _ else _] => destruct c
           end; cbn [timer set_timer set_tdi_tms_tck set_srst_trst set_blink];
      try rewrite Harm by lia; lia.
  - apply Z.eqb_neq in Hz. cbn [timer set_timer].
    rewrite Harm by lia. lia.
Qed.

Lemma run_timer_in_range (cfg : config) (es : list env) (s : sys) :
  1 <= period_cyc cfg -> 1 <= us_cyc cfg ->
  timer_in_range cfg (eng s) -> timer_in_range cfg (eng (run cfg s es)).
Proof.
  intros Hp Hu. revert s. induction es as [| e es IH]; intros s Hin; cbn.
  - assumption.
  - apply IH. now apply tick_timer_in_range.
Qed.

(** A sample at the head of the stream waits, untouched, for as long as the
    sink has no room. *)
Lemma run_stalled (cfg : config) (es : list env) (s : sys) (rest : list Z) :
  timer (eng s) = 0 -> inq s = ord "R" :: rest ->
  Forall (fun e => sink_rdy e = false) es ->
  Forall quiet (trace cfg s es)
  /\ core (eng (run cfg s es)) = core (eng s)
  /\ inq (run cfg s es) = ord "R" :: rest ++ arrivals es
  /\ outq (run cfg s es) = outq s.
Proof.
  revert s rest. induction es as [| e es IH]; intros s rest Hz Hq Hall.
  - cbn. rewrite app_nil_r. repeat split; [constructor | assumption].
  - inversion Hall as [| ? ? Hs Hall']; subst.
    destruct (tick_sample_stalled cfg s e _ rest Hz Hq eq_refl Hs)
      as (Ht & Hg & Hk).
    assert (core (eng (tick cfg s e)) = core (eng s)) as Hc
      by (rewrite Hk; cbn [eng]; apply pads_sync_core).
    destruct (IH (tick cfg s e) (rest ++ arrive e)) as (Hq' & Hc' & Hi' & Ho').
    { rewrite (core_timer _ _ Hc). exact Hz. }
    { rewrite Hk. reflexivity. }
    { exact Hall'. }
    cbn [run trace]. repeat split.
    + constructor; [| exact Hq']. unfold quiet. cbn [fst snd].
      now rewrite Ht, Hg.
    + now rewrite Hc'.
    + rewrite Hi'. cbn [arrivals flat_map]. now rewrite <- app_assoc.
    + rewrite Ho', Hk. reflexivity.
Qed.

(** Once the pad registers mirror [srst_z] and [srst_o], a stalled sample
    leaves every register of the design as it is. *)
Lemma stalled_tick_keeps_registers
    (cfg : config) (s : sys) (e : env) (rest : list Z) :
  timer (eng s) = 0 -> inq s = ord "R" :: rest -> sink_rdy e = false ->
  (has_srst_t cfg = true ->
   srst_t_oe (eng s) = negb srst_z /\ srst_t_o (eng s) = negb (srst_o (eng s))) ->
  eng (tick cfg s e) = eng s.
Proof.
  intros Hz Hq Hs Hpads.
  destruct (tick_sample_stalled cfg s e _ rest Hz Hq eq_refl Hs) as (_ & _ & Hk).
  rewrite Hk. cbn [eng]. unfold pads_sync.
  destruct (has_srst_t cfg); [| reflexivity].
  destruct (Hpads eq_refl) as [Hoe Ho]. unfold set_srst_t.
  rewrite <- Hoe, <- Ho. now destruct (eng s).
Qed.

(** An unknown byte at the head of the stream stays there. *)
Lemma run_hung (cfg : config) (es : list env) (s : sys) (b : Z) (rest : list Z) :
  inq s = b :: rest -> known b = false ->
  Forall quiet (trace cfg s es)
  /\ inq (run cfg s es) = b :: rest ++ arrivals es
  /\ outq (run cfg s es) = outq s.
Proof.
  revert s rest. induction es as [| e es IH]; intros s rest Hq Hk.
  - cbn. rewrite app_nil_r. repeat split; [constructor | assumption].
  - assert (took s e = None /\ gave s e = None /\
            inq (tick cfg s e) = b :: (rest ++ arrive e) /\
            outq (tick cfg s e) = outq s) as (Ht & Hg & Hi & Ho).
    { destruct (Z.eq_dec (timer (eng s)) 0) as [Hz | Hnz].
      - destruct (tick_unknown cfg s e b rest Hz Hq Hk) as (Ht & Hg & Hs).
        rewrite Hs. auto.
      - destruct (tick_countdown cfg s e Hnz) as (Ht & Hg & Hs).
        rewrite Hs, Hq. auto. }
    destruct (IH (tick cfg s e) (rest ++ arrive e) Hi Hk) as (Hq' & Hi' & Ho').
    cbn [run trace]. repeat split.
    + constructor; [| exact Hq']. unfold quiet. cbn [fst snd].
      now rewrite Ht, Hg.
    + rewrite Hi'. cbn [arrivals flat_map]. now rewrite <- app_assoc.
    + now rewrite Ho', Ho.
Qed.

(** * Properties of the engine *)

(** ** Signal commands *)

(** For a period of at least one cycle: a command byte in '0'..'7' consumed
    with the timer at zero loads its bit 0 into tdi, bit 1 into tms and bit 2
    into tck, and arms the timer to [period_cyc - 1].  The following
    [period_cyc - 1] ticks consume nothing, whatever arrives; after them the
    timer is back at zero and the tick that comes [period_cyc] ticks after
    the command takes the next acceptable byte. *)
Theorem write_command_paces
    (cfg : config) (s : sys) (e : env) (b : Z) (rest : list Z) :
  1 <= period_cyc cfg ->
  timer (eng s) = 0 -> inq s = b :: rest -> ord "0" <= b <= ord "7" ->
  let s1 := tick cfg s e in
  took s e = Some b /\ inq s1 = rest ++ arrive e
  /\ tdi (eng s1) = Z.testbit b 0
  /\ tms (eng s1) = Z.testbit b 1
  /\ tck (eng s1) = Z.testbit b 2
  /\ timer (eng s1) = period_cyc cfg - 1
  /\ forall es, Z.of_nat (length es) = period_cyc cfg - 1 ->
       let s2 := run cfg s1 es in
       Forall quiet (trace cfg s1 es)
       /\ inq s2 = rest ++ arrive e ++ arrivals es
       /\ signals (eng s2) = signals (eng s1)
       /\ timer (eng s2) = 0
       /\ forall e' b' rest', inq s2 = b' :: rest' ->
            acceptable b' e' = true -> took s2 e' = Some b'.
Proof.
  intros Hp Hz Hq Hb s1.
  destruct (tick_write cfg s e b rest Hz Hq Hb) as (Ht & _ & Hs).
  fold s1 in Hs.
  assert (0 <= period_cyc cfg - 1 < 2 ^ timer_width cfg) as Hsmall.
  { pose proof (limit_le_pow cfg). unfold timer_limit in *. lia. }
  assert (core (eng s1)
          = core (set_timer (period_cyc cfg - 1) (set_tdi_tms_tck b (eng s))))
    as Hc by (rewrite Hs; cbn [eng];
              rewrite pads_sync_core, (timer_eq_small cfg _ Hsmall);
              reflexivity).
  assert (inq s1 = rest ++ arrive e) as Hi1 by (rewrite Hs; reflexivity).
  clearbody s1. destruct s1 as [r1 i1 o1]. cbn [eng inq] in *.
  unfold core in Hc. cbn [set_timer set_tdi_tms_tck timer tck tms tdi] in Hc.
  inversion Hc as [[Htm Hck Hms Hdi Htr Hsr Hbl]].
  repeat (split; [solve [auto] |]).
  intros es Hlen. cbv zeta.
  destruct (run_countdown cfg es {| eng := r1; inq := i1; outq := o1 |})
    as (Hquiet & Htm' & Hsg & Hi & _).
  { unfold timer_fits. cbn [eng]. lia. }
  { cbn [eng]. lia. }
  cbn [eng inq] in *.
  set (s2 := run cfg {| eng := r1; inq := i1; outq := o1 |} es) in *.
  assert (timer (eng s2) = 0) as Hz2 by lia.
  repeat (split; [solve [auto] |]).
  split; [rewrite Hi, Hi1; now rewrite <- app_assoc |].
  repeat (split; [solve [auto] |]).
  intros e' b' rest' Hq' Ha. now apply (ready_takes _ e' b' rest').
Qed.

Lemma write_command_paces_witness :
  1 <= period_cyc demo_cfg
  /\ (tdi (eng (tick demo_cfg (demo_sys 0 [ord "5"; ord "2"])
                  (demo_env true false))) = true
      /\ timer (eng (tick demo_cfg (demo_sys 0 [ord "5"; ord "2"])
                       (demo_env true false))) = 2).
Proof.
  split; [vm_compute; discriminate |].
  pose proof (write_command_paces demo_cfg (demo_sys 0 [ord "5"; ord "2"])
                (demo_env true false) (ord "5") [ord "2"]) as H.
  cbv zeta in H.
  destruct H as (_ & _ & Hdi & _ & _ & Htm & _).
  - vm_compute; discriminate.
  - reflexivity.
  - reflexivity.
  - vm_compute. split; discriminate.
  - split; [exact Hdi | exact Htm].
Defined.

Lemma arrivals_repeat (e : env) (n : nat) :
  arrive e = [] -> arrivals (repeat e n) = [].
Proof.
  intros He. induction n as [| n IH]; [reflexivity |].
  cbn [repeat arrivals flat_map]. fold (arrivals (repeat e n)).
  now rewrite He, IH.
Qed.

(** C1.  A command byte in '0'..'7' should load bits 0, 1, 2 into tdi, tms,
    tck, arm the timer to [period_cyc - 1] and hold off the next command for
    exactly [period_cyc] ticks.  With the period of 0 cycles that [build]
    computes for a frequency above the system clock, the byte '5' is
    consumed and its bits are loaded, but the timer is armed to 65535
    instead: the byte behind it is refused on the next tick and on each of
    the 65535 ticks after the command, and is taken only then. *)
Theorem write_command_stalls_at_zero_period :
  let cfg := build 48000000 100000 false in
  let s := reset [ord "5"; ord "1"] in
  let e := demo_env true false in
  let s1 := tick cfg s e in
  period_cyc cfg = 0
  /\ took s e = Some (ord "5")
  /\ (tdi (eng s1), tms (eng s1), tck (eng s1)) = (true, false, true)
  /\ timer (eng s1) = 65535
  /\ timer (eng s1) <> period_cyc cfg - 1
  /\ took s1 e = None
  /\ Forall quiet (trace cfg s1 (repeat e (Z.to_nat 65535)))
  /\ took (run cfg s1 (repeat e (Z.to_nat 65535))) e = Some (ord "1").
Proof.
  intros cfg s e s1.
  assert (timer (eng s1) = 65535) as Htm by (vm_compute; reflexivity).
  assert (inq s1 = [ord "1"]) as Hi1 by (vm_compute; reflexivity).
  assert (2 ^ timer_width cfg = 65536) as Hw by (vm_compute; reflexivity).
  assert (Z.of_nat (length (repeat e (Z.to_nat 65535))) = 65535) as Hlen
    by (rewrite repeat_length; apply Z2Nat.id; lia).
  destruct (run_countdown cfg (repeat e (Z.to_nat 65535)) s1)
    as (Hquiet & Htm' & _ & Hi & _).
  { unfold timer_fits. rewrite Htm, Hw. lia. }
  { rewrite Htm, Hlen. lia. }
  pose proof (arrivals_repeat e (Z.to_nat 65535) eq_refl) as Harr.
  rewrite Harr, Hi1 in Hi. cbn [app] in Hi.
  split; [reflexivity |].
  split; [reflexivity |].
  split; [vm_compute; reflexivity |].
  split; [exact Htm |].
  split; [rewrite Htm; vm_compute; discriminate |].
  split; [vm_compute; reflexivity |].
  split; [exact Hquiet |].
  apply (ready_takes _ e (ord "1") []); [lia | exact Hi | reflexivity].
Qed.

(** ** Sampling *)

(** C2.  An 'R' consumed with the timer at zero and room in the sink takes
    exactly that byte from the stream and appends exactly one byte to the
    output, ['0' | tdo], which is '0' or '1'.  Over any run, the output grows
    by one such byte per consumed 'R', in the order the 'R's were consumed,
    and the consumed bytes are the front of the stream. *)
Theorem sample_one_byte_in_order
    (cfg : config) (s : sys) (e : env) (rest : list Z)
    (s' : sys) (es : list env) :
  timer (eng s) = 0 -> inq s = ord "R" :: rest -> sink_rdy e = true ->
  (took s e = Some (ord "R")
   /\ gave s e = Some (sample_byte (tdo_pin e))
   /\ inq (tick cfg s e) = rest ++ arrive e
   /\ outq (tick cfg s e) = outq s ++ [sample_byte (tdo_pin e)]
   /\ core (eng (tick cfg s e)) = core (eng s)
   /\ sample_byte (tdo_pin e) = (if tdo_pin e then ord "1" else ord "0"))
  /\ (outq (run cfg s' es) = outq s' ++ answers (trace cfg s' es)
      /\ inq s' ++ arrivals es
         = consumed (trace cfg s' es) ++ inq (run cfg s' es)).
Proof.
  intros Hz Hq Hs. split.
  - destruct (tick_sample_ready cfg s e _ rest Hz Hq eq_refl Hs)
      as (Ht & Hg & Hk).
    rewrite Hk. cbn [eng inq outq]. rewrite pads_sync_core.
    repeat split; auto. now destruct (tdo_pin e).
  - destruct (run_streams cfg es s') as [Hi Ho]. now split.
Qed.

Lemma sample_one_byte_in_order_witness :
  outq (run demo_cfg (demo_sys 0 [ord "R"; ord "R"; ord "Q"; ord "R"])
          [demo_env true true; demo_env false false; demo_env true false;
           demo_env true true; demo_env true true])
  = [ord "1"; ord "0"; ord "1"]
  /\ gave (demo_sys 0 [ord "R"]) (demo_env true true) = Some (ord "1").
Proof.
  pose proof (sample_one_byte_in_order demo_cfg (demo_sys 0 [ord "R"])
                (demo_env true true) []
                (demo_sys 0 [ord "R"; ord "R"; ord "Q"; ord "R"])
                [demo_env true true; demo_env false false; demo_env true false;
                 demo_env true true; demo_env true true]
                eq_refl eq_refl eq_refl) as [(_ & Hg & _) (Ho & _)].
  split; [rewrite Ho; reflexivity | exact Hg].
Defined.

(** C3.  With an 'R' at the head of the stream and no room in the sink, a
    tick consumes nothing, produces nothing and leaves the engine's
    registers as they are; this repeats for as long as the sink stays full,
    and on the first tick where the sink has room the 'R' is consumed and
    its sample produced. *)
Theorem sample_backpressure
    (cfg : config) (s : sys) (rest : list Z) (es : list env) (e' : env) :
  timer (eng s) = 0 -> inq s = ord "R" :: rest ->
  Forall (fun e => sink_rdy e = false) es -> sink_rdy e' = true ->
  let s1 := run cfg s es in
  Forall quiet (trace cfg s es)
  /\ core (eng s1) = core (eng s)
  /\ inq s1 = ord "R" :: rest ++ arrivals es
  /\ outq s1 = outq s
  /\ took s1 e' = Some (ord "R")
  /\ gave s1 e' = Some (sample_byte (tdo_pin e'))
  /\ inq (tick cfg s1 e') = rest ++ arrivals es ++ arrive e'
  /\ outq (tick cfg s1 e') = outq s ++ [sample_byte (tdo_pin e')].
Proof.
  intros Hz Hq Hall Hs' s1.
  destruct (run_stalled cfg es s rest Hz Hq Hall) as (Hquiet & Hc & Hi & Ho).
  fold s1 in Hc, Hi, Ho.
  assert (timer (eng s1) = 0) as Hz1 by (rewrite (core_timer _ _ Hc); exact Hz).
  destruct (tick_sample_ready cfg s1 e' _ _ Hz1 Hi eq_refl Hs')
    as (Ht & Hg & Hk).
  repeat (split; [solve [auto] |]).
  rewrite Hk. cbn [inq outq]. rewrite Ho, <- app_assoc. now split.
Qed.

Lemma sample_backpressure_witness :
  Forall (fun e => sink_rdy e = false) [demo_env false true; demo_env false false]
  /\ inq (run demo_cfg (demo_sys 0 [ord "R"; ord "Q"])
            [demo_env false true; demo_env false false])
     = [ord "R"; ord "Q"]
  /\ outq (tick demo_cfg
             (run demo_cfg (demo_sys 0 [ord "R"; ord "Q"])
                [demo_env false true; demo_env false false])
             (demo_env true true))
     = [ord "1"].
Proof.
  assert (Forall (fun e => sink_rdy e = false)
            [demo_env false true; demo_env false false]) as Hall
    by (repeat constructor).
  pose proof (sample_backpressure demo_cfg (demo_sys 0 [ord "R"; ord "Q"])
                [ord "Q"] [demo_env false true; demo_env false false]
                (demo_env true true) eq_refl eq_refl Hall eq_refl) as H.
  cbv zeta in H. destruct H as (_ & _ & Hi & _ & _ & _ & _ & Ho).
  split; [exact Hall |]. split; [exact Hi | exact Ho].
Defined.

(** ** Unknown commands *)

(** C4.  A byte that is none of '0'..'7', 'r','s','t','u', 'R', 'B','b',
    'Z', 'z', 'Q' at the head of the stream is never consumed: over any
    number of ticks, whatever the timer, the sink and the arrivals, no byte
    is consumed and no byte is produced, and the byte stays at the head. *)
Theorem unknown_command_hangs
    (cfg : config) (s : sys) (b : Z) (rest : list Z) (es : list env) :
  inq s = b :: rest -> ~ In b (bytes_of "01234567rstuRBbZzQ") ->
  Forall quiet (trace cfg s es)
  /\ inq (run cfg s es) = b :: rest ++ arrivals es
  /\ outq (run cfg s es) = outq s.
Proof.
  intros Hq Hn. apply run_hung; [exact Hq | now apply not_listed_unknown].
Qed.

Lemma unknown_command_hangs_witness :
  ~ In (ord "X") (bytes_of "01234567rstuRBbZzQ")
  /\ inq (run demo_cfg (demo_sys 0 [ord "X"; ord "R"])
            [demo_env true true; demo_env true true; demo_env true true])
     = [ord "X"; ord "R"]
  /\ outq (run demo_cfg (demo_sys 0 [ord "X"; ord "R"])
             [demo_env true true; demo_env true true; demo_env true true])
     = [].
Proof.
  assert (~ In (ord "X") (bytes_of "01234567rstuRBbZzQ")) as Hn.
  { vm_compute. intros H.
    repeat (destruct H as [H | H]; [discriminate H |]). exact H. }
  split; [exact Hn |].
  destruct (unknown_command_hangs demo_cfg (demo_sys 0 [ord "X"; ord "R"])
              (ord "X") [ord "R"]
              [demo_env true true; demo_env true true; demo_env true true]
              eq_refl Hn) as (_ & Hi & Ho).
  split; [exact Hi | exact Ho].
Defined.

(** ** Countdown and idling *)

(** C5.  On a tick where the timer is not zero the engine takes the timer
    down by one and does nothing else: no byte is consumed, none is
    produced, and tck, tms, tdi, trst_o, srst_o and blink keep their values.
    With the timer at zero and no byte available the engine idles: the
    timer stays at zero and the same holds. *)
Theorem countdown_or_idle (cfg : config) (s : sys) (e : env) :
  timer_fits cfg (eng s) ->
  timer (eng s) <> 0 \/ inq s = [] ->
  took s e = None /\ gave s e = None
  /\ inq (tick cfg s e) = inq s ++ arrive e
  /\ outq (tick cfg s e) = outq s
  /\ signals (eng (tick cfg s e)) = signals (eng s)
  /\ (timer (eng s) <> 0 ->
      timer (eng (tick cfg s e)) = timer (eng s) - 1)
  /\ (timer (eng s) = 0 -> core (eng (tick cfg s e)) = core (eng s)).
Proof.
  intros Hfit Hcase.
  destruct (Z.eq_dec (timer (eng s)) 0) as [Hz | Hnz].
  - destruct Hcase as [Hnz | Hq]; [contradiction |].
    destruct (tick_idle cfg s e Hz Hq) as (Ht & Hg & Hs).
    rewrite Hs, Hq. cbn [eng inq outq].
    rewrite pads_sync_signals, pads_sync_core.
    repeat split; auto. intros Hnz. contradiction.
  - destruct (tick_countdown cfg s e Hnz) as (Ht & Hg & Hs).
    rewrite Hs. cbn [eng inq outq].
    rewrite pads_sync_signals, pads_sync_timer.
    repeat split; auto.
    + intros _. cbn [timer set_timer]. apply timer_eq_small.
      unfold timer_fits in Hfit. lia.
    + intros Hz. contradiction.
Qed.

Lemma countdown_or_idle_witness :
  timer_fits demo_cfg (eng (demo_sys 2 [ord "R"]))
  /\ took (demo_sys 2 [ord "R"]) (demo_env true true) = None
  /\ timer (eng (tick demo_cfg (demo_sys 2 [ord "R"]) (demo_env true true))) = 1.
Proof.
  assert (timer_fits demo_cfg (eng (demo_sys 2 [ord "R"]))) as Hfit
    by (vm_compute; split; [discriminate | reflexivity]).
  assert (timer (eng (demo_sys 2 [ord "R"])) <> 0) as Hnz
    by (vm_compute; discriminate).
  destruct (countdown_or_idle demo_cfg (demo_sys 2 [ord "R"])
              (demo_env true true) Hfit (or_introl Hnz))
    as (Ht & _ & _ & _ & _ & Htm & _).
  split; [exact Hfit |]. split; [exact Ht | exact (Htm Hnz)].
Defined.

(** ** Sleeping *)

(** C6.  Consuming 'Z' arms the timer to [1000 * us_cyc - 1] and consuming
    'z' arms it to [us_cyc - 1] (for at least one cycle per microsecond).
    With an 'R' right behind the sleep command, the [n] ticks that start
    with the sleep command produce nothing and leave the 'R' at the head
    ([n] is [1000 * us_cyc] for 'Z' and [us_cyc] for 'z'); the next tick,
    given room in the sink, consumes the 'R' and produces its sample. *)
Theorem sleep_delays_sample
    (cfg : config) (s : sys) (e : env) (b n : Z) (rest : list Z)
    (es : list env) (e' : env) :
  1 <= us_cyc cfg ->
  (b = ord "Z" /\ n = 1000 * us_cyc cfg) \/ (b = ord "z" /\ n = us_cyc cfg) ->
  timer (eng s) = 0 -> inq s = b :: ord "R" :: rest ->
  Z.of_nat (length es) = n - 1 -> sink_rdy e' = true ->
  let s1 := tick cfg s e in
  let s2 := run cfg s1 es in
  took s e = Some b /\ gave s e = None
  /\ timer (eng s1) = n - 1
  /\ Forall quiet (trace cfg s1 es)
  /\ inq s2 = ord "R" :: rest ++ arrive e ++ arrivals es
  /\ outq s2 = outq s
  /\ signals (eng s2) = signals (eng s)
  /\ took s2 e' = Some (ord "R")
  /\ gave s2 e' = Some (sample_byte (tdo_pin e'))
  /\ outq (tick cfg s2 e') = outq s ++ [sample_byte (tdo_pin e')].
Proof.
  intros Hu Hb Hz Hq Hlen Hs' s1 s2.
  assert (b = ord "Z" \/ b = ord "z") as Hb' by tauto.
  destruct (tick_sleep cfg s e b _ Hz Hq Hb') as (Ht & Hg & Hs).
  fold s1 in Hs.
  assert (sleep_cyc cfg b = n) as Hn
    by (unfold sleep_cyc; destruct Hb as [[-> ->] | [-> ->]]; reflexivity).
  assert (0 <= n - 1 < 2 ^ timer_width cfg) as Hsmall.
  { pose proof (limit_le_pow cfg). unfold timer_limit in *. lia. }
  rewrite Hn, (timer_eq_small cfg _ Hsmall) in Hs.
  assert (timer (eng s1) = n - 1) as Htm
    by (rewrite Hs; cbn [eng]; now rewrite pads_sync_timer).
  assert (signals (eng s1) = signals (eng s)) as Hsg
    by (rewrite Hs; cbn [eng]; now rewrite pads_sync_signals).
  destruct (run_countdown cfg es s1) as (Hquiet & Htm' & Hsg' & Hi & Ho).
  { unfold timer_fits. lia. }
  { lia. }
  fold s2 in Htm', Hsg', Hi, Ho.
  assert (inq s2 = ord "R" :: rest ++ arrive e ++ arrivals es) as Hi2
    by (rewrite Hi, Hs; cbn [inq]; now rewrite <- app_assoc).
  assert (outq s2 = outq s) as Ho2 by (rewrite Ho, Hs; reflexivity).
  assert (timer (eng s2) = 0) as Hz2 by lia.
  destruct (tick_sample_ready cfg s2 e' _ _ Hz2 Hi2 eq_refl Hs')
    as (Ht2 & Hg2 & Hk).
  repeat (split; [solve [auto] |]).
  split; [congruence |].
  repeat (split; [solve [auto] |]).
  rewrite Hk. cbn [outq]. now rewrite Ho2.
Qed.

Lemma sleep_delays_sample_witness :
  1 <= us_cyc demo_cfg
  /\ timer (eng (tick demo_cfg (demo_sys 0 [ord "z"; ord "R"])
                   (demo_env true true))) = 1
  /\ outq (run demo_cfg (demo_sys 0 [ord "z"; ord "R"])
             [demo_env true true; demo_env true false]) = []
  /\ outq (run demo_cfg (demo_sys 0 [ord "z"; ord "R"])
             [demo_env true true; demo_env true false; demo_env true true])
     = [ord "1"].
Proof.
  split; [vm_compute; discriminate |].
  pose proof (sleep_delays_sample demo_cfg (demo_sys 0 [ord "z"; ord "R"])
                (demo_env true true) (ord "z") 2 [] [demo_env true false]
                (demo_env true true))
    as H.
  cbv zeta in H.
  destruct H as (_ & _ & Htm & _ & _ & Ho1 & _ & _ & _ & Ho).
  - vm_compute; discriminate.
  - right. split; reflexivity.
  - reflexivity.
  - reflexivity.
  - reflexivity.
  - reflexivity.
  - split; [exact Htm |]. split; [exact Ho1 | exact Ho].
Defined.

(** ** The range of the timer *)

(** With at least one cycle per period and per microsecond the timer stays
    in its declared range from reset on. *)
Lemma timer_in_range_from_reset
    (cfg : config) (q : list Z) (es : list env) :
  1 <= period_cyc cfg -> 1 <= us_cyc cfg ->
  timer_in_range cfg (eng (run cfg {| eng := init; inq := q; outq := [] |} es)).
Proof.
  intros Hp Hu. apply run_timer_in_range; try assumption.
  unfold timer_in_range, timer_limit. cbn [eng init timer]. lia.
Qed.

(** C7.  The timer is declared with the range
    [0 .. max(period_cyc, 1000 * us_cyc) - 1], but a TCK frequency above the
    system clock gives [period_cyc = 0]: from reset, the first '0'..'7'
    command then assigns [-1] to the unsigned timer, which wraps to the
    all-ones value of its width and lies outside the range. *)
Theorem timer_leaves_range_at_zero_period :
  let cfg := build 48000000 100000 false in
  let s := {| eng := init; inq := [ord "0"]; outq := [] |} in
  let e := demo_env true false in
  period_cyc cfg = 0 /\ us_cyc cfg = 48
  /\ timer_in_range cfg (eng s)
  /\ took s e = Some (ord "0")
  /\ timer_limit cfg - 1 = 47999
  /\ timer (eng (tick cfg s e)) = 65535
  /\ ~ timer_in_range cfg (eng (tick cfg s e)).
Proof.
  cbv zeta.
  assert (timer (eng (tick (build 48000000 100000 false)
                        {| eng := init; inq := [ord "0"]; outq := [] |}
                        (demo_env true false))) = 65535) as Htm
    by (vm_compute; reflexivity).
  assert (timer_limit (build 48000000 100000 false) = 48000) as Hl
    by (vm_compute; reflexivity).
  unfold timer_in_range. rewrite Htm, Hl. cbn [eng init timer].
  repeat split; try reflexivity; try lia.
Qed.

(** ** Reset, blink and quit *)

(** C8.  A command byte in 'r','s','t','u' consumed with the timer at zero
    loads bit 0 of [byte - 'r'] into srst_o and bit 1 into trst_o, so that
    the pair read as a 2-bit number is [byte - 'r']; the timer stays at zero
    and the next acceptable byte is taken on the very next tick. *)
Theorem reset_command
    (cfg : config) (s : sys) (e : env) (b : Z) (rest : list Z) :
  timer (eng s) = 0 -> inq s = b :: rest -> ord "r" <= b <= ord "u" ->
  let s1 := tick cfg s e in
  took s e = Some b /\ gave s e = None
  /\ inq s1 = rest ++ arrive e
  /\ srst_o (eng s1) = Z.testbit (b - ord "r") 0
  /\ trst_o (eng s1) = Z.testbit (b - ord "r") 1
  /\ Z.b2z (srst_o (eng s1)) + 2 * Z.b2z (trst_o (eng s1)) = b - ord "r"
  /\ timer (eng s1) = 0
  /\ (tck (eng s1), tms (eng s1), tdi (eng s1), blink (eng s1))
     = (tck (eng s), tms (eng s), tdi (eng s), blink (eng s))
  /\ forall e' b' rest', inq s1 = b' :: rest' ->
       acceptable b' e' = true -> took s1 e' = Some b'.
Proof.
  intros Hz Hq Hb s1.
  destruct (tick_reset cfg s e b rest Hz Hq Hb) as (Ht & Hg & Hs).
  fold s1 in Hs.
  assert (core (eng s1) = core (set_srst_trst (b - ord "r") (eng s))) as Hc
    by (rewrite Hs; cbn [eng]; apply pads_sync_core).
  assert (inq s1 = rest ++ arrive e) as Hi by (rewrite Hs; reflexivity).
  clearbody s1. destruct s1 as [r1 i1 o1]. cbn [eng inq] in *.
  unfold core in Hc. cbn [set_srst_trst timer tck tms tdi trst_o srst_o blink] in Hc.
  injection Hc as Htm Hck Hms Hdi Htr Hsr Hbl.
  assert (timer r1 = 0) as Hz1 by congruence.
  repeat (split; [solve [auto] |]).
  split.
  { rewrite Hsr, Htr. ords.
    assert (b = 114 \/ b = 115 \/ b = 116 \/ b = 117) as Hcases by lia.
    destruct Hcases as [-> | [-> | [-> | ->]]]; reflexivity. }
  split; [exact Hz1 |].
  split; [congruence |].
  intros e' b' rest' Hq' Ha.
  apply (ready_takes {| eng := r1; inq := i1; outq := o1 |} e' b' rest'); auto.
Qed.

Lemma reset_command_witness :
  ord "r" <= ord "t" <= ord "u"
  /\ srst_o (eng (tick demo_cfg (demo_sys 0 [ord "t"]) (demo_env true true)))
     = false
  /\ trst_o (eng (tick demo_cfg (demo_sys 0 [ord "t"]) (demo_env true true)))
     = true.
Proof.
  assert (ord "r" <= ord "t" <= ord "u") as Hb
    by (vm_compute; split; discriminate).
  split; [exact Hb |].
  pose proof (reset_command demo_cfg (demo_sys 0 [ord "t"]) (demo_env true true)
                (ord "t") [] eq_refl eq_refl Hb) as H.
  cbv zeta in H. destruct H as (_ & _ & _ & Hs & Ht & _).
  split; [exact Hs | exact Ht].
Defined.

(** C9.  A 'B' or 'b' consumed with the timer at zero sets blink to the
    complement of bit 5 of the byte, whatever blink was before: 'B' sets it
    to 1 and 'b' to 0.  The timer stays at zero. *)
Theorem blink_command
    (cfg : config) (s : sys) (e : env) (b : Z) (rest : list Z) :
  timer (eng s) = 0 -> inq s = b :: rest -> b = ord "B" \/ b = ord "b" ->
  let s1 := tick cfg s e in
  took s e = Some b /\ gave s e = None
  /\ inq s1 = rest ++ arrive e
  /\ blink (eng s1) = negb (Z.testbit b 5)
  /\ blink (eng s1) = (b =? ord "B")
  /\ timer (eng s1) = 0
  /\ (tck (eng s1), tms (eng s1), tdi (eng s1), trst_o (eng s1), srst_o (eng s1))
     = (tck (eng s), tms (eng s), tdi (eng s), trst_o (eng s), srst_o (eng s)).
Proof.
  intros Hz Hq Hb s1.
  destruct (tick_blink cfg s e b rest Hz Hq Hb) as (Ht & Hg & Hs).
  fold s1 in Hs.
  assert (core (eng s1) = core (set_blink (negb (Z.testbit b 5)) (eng s))) as Hc
    by (rewrite Hs; cbn [eng]; apply pads_sync_core).
  assert (inq s1 = rest ++ arrive e) as Hi by (rewrite Hs; reflexivity).
  clearbody s1. destruct s1 as [r1 i1 o1]. cbn [eng inq] in *.
  unfold core in Hc. cbn [set_blink timer tck tms tdi trst_o srst_o blink] in Hc.
  injection Hc as Htm Hck Hms Hdi Htr Hsr Hbl.
  repeat (split; [solve [auto] |]).
  split; [rewrite Hbl; destruct Hb as [-> | ->]; reflexivity |].
  split; [congruence |]. congruence.
Qed.

Lemma blink_command_witness :
  blink (eng (tick demo_cfg (demo_sys 0 [ord "B"]) (demo_env true true))) = true
  /\ blink (eng (tick demo_cfg (tick demo_cfg (demo_sys 0 [ord "B"; ord "b"])
                                  (demo_env true true))
                   (demo_env true true))) = false.
Proof.
  pose proof (blink_command demo_cfg (demo_sys 0 [ord "B"]) (demo_env true true)
                (ord "B") [] eq_refl eq_refl (or_introl eq_refl)) as H1.
  pose proof (blink_command demo_cfg
                (tick demo_cfg (demo_sys 0 [ord "B"; ord "b"])
                   (demo_env true true))
                (demo_env true true)
                (ord "b") [] eq_refl eq_refl (or_intror eq_refl)) as H2.
  cbv zeta in H1, H2.
  destruct H1 as (_ & _ & _ & _ & Hb1 & _).
  destruct H2 as (_ & _ & _ & _ & Hb2 & _).
  split; [exact Hb1 | exact Hb2].
Defined.

(** ** Frame *)

(** C10.  On every tick each group of signals changes only through its own
    command: tck, tms and tdi keep their values unless a '0'..'7' byte is
    consumed, srst_o and trst_o unless an 'r','s','t','u' byte is consumed,
    blink unless a 'B' or 'b' is consumed; consuming 'Q' leaves the signals,
    blink and the timer as they are.  The TDO level is only read into the
    sample byte: the next registers and the read strobe do not depend on
    it. *)
Theorem frame_per_command (cfg : config) (s : sys) (e : env) :
  (took_in "01234567" (took s e) = false ->
     (tck (eng (tick cfg s e)), tms (eng (tick cfg s e)),
      tdi (eng (tick cfg s e)))
     = (tck (eng s), tms (eng s), tdi (eng s)))
  /\ (took_in "rstu" (took s e) = false ->
        (srst_o (eng (tick cfg s e)), trst_o (eng (tick cfg s e)))
        = (srst_o (eng s), trst_o (eng s)))
  /\ (took_in "Bb" (took s e) = false ->
        blink (eng (tick cfg s e)) = blink (eng s))
  /\ (took s e = Some (ord "Q") ->
        core (eng (tick cfg s e)) = core (eng s))
  /\ (forall d : bool,
        eng (tick cfg s e) = eng (tick cfg s (with_tdo d e))
        /\ took s e = took s (with_tdo d e)).
Proof.
  assert (forall nxt, (tck (pads_sync cfg (eng s) nxt),
                       tms (pads_sync cfg (eng s) nxt),
                       tdi (pads_sync cfg (eng s) nxt))
                      = (tck nxt, tms nxt, tdi nxt)) as P1
    by (intros; unfold pads_sync; now destruct (has_srst_t cfg)).
  assert (forall nxt, (srst_o (pads_sync cfg (eng s) nxt),
                       trst_o (pads_sync cfg (eng s) nxt))
                      = (srst_o nxt, trst_o nxt)) as P2
    by (intros; unfold pads_sync; now destruct (has_srst_t cfg)).
  assert (forall nxt, blink (pads_sync cfg (eng s) nxt) = blink nxt) as P3
    by (intros; unfold pads_sync; now destruct (has_srst_t cfg)).
  split; [| split; [| split; [| split; [| intros d; split; [reflexivity |]]]]].
  - any_tick s e; rewrite P1; try reflexivity; intros H; try discriminate H;
      repeat match goal with E : Case _ _ = _ |- _ => revert E end;
      unfold Case; cbn [bytes_of existsb]; ords; intros; lia.
  - any_tick s e; rewrite P2; try reflexivity; intros H; try discriminate H;
      repeat match goal with E : Case _ _ = _ |- _ => revert E end;
      unfold Case; cbn [bytes_of existsb]; ords; intros; lia.
  - any_tick s e; rewrite P3; try reflexivity; intros H; try discriminate H;
      repeat match goal with E : Case _ _ = _ |- _ => revert E end;
      unfold Case; cbn [bytes_of existsb]; ords; intros; lia.
  - any_tick s e; rewrite pads_sync_core; try reflexivity; intros H;
      try discriminate H; injection H as H; ords; exfalso; lia.
  - unfold took, elaborate_comb, ports_of, with_tdo.
    cbn [r_rdy r_data w_rdy tdo sink_rdy tdo_pin arrive].
    destruct (negb (timer (eng s) =? 0)); [reflexivity |].
    destruct (inq s) as [| b rest]; [reflexivity |]. cbn [hd].
    destruct (Case "01234567" b); [reflexivity |].
    destruct (Case "rstu" b); [reflexivity |].
    destruct (Case "R" b); reflexivity.
Qed.

Lemma frame_per_command_witness :
  took (demo_sys 0 [ord "Q"]) (demo_env true true) = Some (ord "Q")
  /\ core (eng (tick demo_cfg (demo_sys 0 [ord "Q"]) (demo_env true true)))
     = core (eng (demo_sys 0 [ord "Q"]))
  /\ blink (eng (tick demo_cfg (demo_sys 0 [ord "5"]) (demo_env true true)))
     = blink (eng (demo_sys 0 [ord "5"])).
Proof.
  destruct (frame_per_command demo_cfg (demo_sys 0 [ord "Q"])
              (demo_env true true)) as (_ & _ & _ & HQ & _).
  destruct (frame_per_command demo_cfg (demo_sys 0 [ord "5"])
              (demo_env true true)) as (_ & _ & HB & _).
  split; [reflexivity |]. split; [exact (HQ eq_refl) | exact (HB eq_refl)].
Defined.

(** * Further properties of the engine *)

Lemma run_app (cfg : config) (es1 es2 : list env) (s : sys) :
  run cfg s (es1 ++ es2) = run cfg (run cfg s es1) es2.
Proof. revert s. induction es1 as [| e es1 IH]; intros s; cbn; auto. Qed.

Lemma trace_app (cfg : config) (es1 es2 : list env) (s : sys) :
  trace cfg s (es1 ++ es2) = trace cfg s es1 ++ trace cfg (run cfg s es1) es2.
Proof.
  revert s. induction es1 as [| e es1 IH]; intros s; cbn; [reflexivity|].
  now rewrite IH.
Qed.

Lemma consumed_app (t1 t2 : list (option (Z * bool) * option Z)) :
  consumed (t1 ++ t2) = consumed t1 ++ consumed t2.
Proof. unfold consumed. apply flat_map_app. Qed.

Lemma consumed_quiet (tr : list (option (Z * bool) * option Z)) :
  Forall quiet tr -> consumed tr = [].
Proof.
  induction 1 as [| o tr [Hf _] _ IH]; [reflexivity |].
  cbn. rewrite Hf. exact IH.
Qed.

Lemma arrivals_app (es1 es2 : list env) :
  arrivals (es1 ++ es2) = arrivals es1 ++ arrivals es2.
Proof. unfold arrivals. apply flat_map_app. Qed.

(** A byte is only ever taken with the timer at zero. *)
Lemma took_ready (s : sys) (e : env) (b : Z) :
  took s e = Some b -> timer (eng s) = 0.
Proof.
  unfold took, elaborate_comb. destruct (timer (eng s) =? 0) eqn:Hz.
  - intros _. now apply Z.eqb_eq.
  - cbn. discriminate.
Qed.

(** ** Signals as a function of the consumed commands *)

Lemma effect_signals (a b : regs) (x : Z) :
  signals a = signals b -> signals (effect a x) = signals (effect b x).
Proof.
  unfold signals, effect. intros H. inversion H.
  destruct (Case "01234567" x); [cbn; congruence |].
  destruct (Case "rstu" x); [cbn; congruence |].
  destruct (Case "Bb" x); cbn; congruence.
Qed.

Lemma sample_is_not_blink (b : Z) : Case "R" b = true -> Case "Bb" b = false.
Proof.
  intros H. apply Case_In in H. vm_compute in H.
  decide_case "Bb"%string b. reflexivity.
Qed.

Lemma tick_effect (cfg : config) (s : sys) (e : env) :
  signals (eng (tick cfg s e))
  = signals (match took s e with
             | Some b => effect (eng s) b
             | None => eng s
             end).
Proof.
  unfold tick, took, elaborate_sync, elaborate_comb, ports_of, effect.
  cbn [eng r_rdy r_data w_rdy]. rewrite pads_sync_signals.
  destruct (timer (eng s) =? 0); cbn [negb]; [| reflexivity].
  destruct (inq s) as [| b rest]; cbn [hd]; [reflexivity |].
  destruct (Case "01234567" b) eqn:E1; cbn [r_en andb];
    [now rewrite E1 |].
  destruct (Case "rstu" b) eqn:E2; cbn [r_en andb];
    [now rewrite E1, E2 |].
  destruct (Case "R" b) eqn:ER; cbn [r_en andb].
  { destruct (sink_rdy e); cbn [andb]; [| reflexivity].
    now rewrite E1, E2, (sample_is_not_blink b ER). }
  destruct (Case "Bb" b) eqn:E3; cbn [r_en andb];
    [now rewrite E1, E2, E3 |].
  destruct (Case "Z" b); cbn [r_en andb]; [now rewrite E1, E2, E3 |].
  destruct (Case "z" b); cbn [r_en andb]; [now rewrite E1, E2, E3 |].
  destruct (Case "Q" b); cbn [r_en andb]; [now rewrite E1, E2, E3 |].
  reflexivity.
Qed.

Lemma run_effect (cfg : config) (es : list env) (s : sys) (st0 : regs) :
  signals (eng s) = signals st0 ->
  signals (eng (run cfg s es))
  = signals (fold_left effect (consumed (trace cfg s es)) st0).
Proof.
  revert s st0. induction es as [| e es IH]; intros s st0 H0.
  - exact H0.
  - cbn [run trace]. unfold consumed. cbn [flat_map fst].
    fold (consumed (trace cfg (tick cfg s e) es)).
    rewrite fold_left_app. apply IH. rewrite tick_effect.
    destruct (took s e) as [b |]; cbn [option_map app fold_left].
    + now apply effect_signals.
    + exact H0.
Qed.


(** X2.  After any run the six signals are what the consumed bytes, applied
    in order to the signals the run started from, make them: timing, stalls
    and arrivals never show in their values. *)
Theorem signals_replay (cfg : config) (s : sys) (es : list env) :
  signals (eng (run cfg s es))
  = signals (fold_left effect (consumed (trace cfg s es)) (eng s)).
Proof. now apply run_effect. Qed.

(** ** The time a command script takes *)

Lemma known_classes (b : Z) :
  known b = true ->
  Case "01234567" b = true \/ Case "rstu" b = true \/ Case "R" b = true
  \/ Case "Bb" b = true \/ Case "Z" b = true \/ Case "z" b = true
  \/ Case "Q" b = true.
Proof.
  unfold known. rewrite !orb_true_iff. tauto.
Qed.

Lemma cost_pos (cfg : config) (b : Z) :
  1 <= period_cyc cfg -> 1 <= us_cyc cfg -> 1 <= cost cfg b.
Proof.
  intros Hp Hu. unfold cost.
  destruct (Case "01234567" b); [lia |].
  destruct (Case "Z" b); [lia |].
  destruct (Case "z" b); lia.
Qed.

Lemma script_cost_nonneg (cfg : config) (ws : list Z) :
  1 <= period_cyc cfg -> 1 <= us_cyc cfg -> 0 <= script_cost cfg ws.
Proof.
  intros Hp Hu. induction ws as [| b ws IH]; cbn [script_cost fold_right];
    [lia |].
  fold (script_cost cfg ws). pose proof (cost_pos cfg b Hp Hu). lia.
Qed.

(** A known byte found at the head with the timer at zero and room in the
    sink is consumed, and arms the timer with the rest of its cost. *)
Lemma tick_known (cfg : config) (s : sys) (e : env) (b : Z) (rest : list Z) :
  1 <= period_cyc cfg -> 1 <= us_cyc cfg ->
  timer (eng s) = 0 -> inq s = b :: rest ->
  known b = true -> sink_rdy e = true ->
  took s e = Some b
  /\ inq (tick cfg s e) = rest ++ arrive e
  /\ timer (eng (tick cfg s e)) = cost cfg b - 1.
Proof.
  intros Hp Hu Hz Hq Hk Hs.
  pose proof (limit_le_pow cfg) as Hpow.
  assert (period_cyc cfg <= timer_limit cfg
          /\ 1000 * us_cyc cfg <= timer_limit cfg) as [Hlp Hlu]
    by (unfold timer_limit; lia).
  unfold cost.
  destruct (Case "01234567" b) eqn:E1.
  { pose proof (Case_In _ _ E1) as Hin. vm_compute in Hin.
    destruct (tick_write cfg s e b rest Hz Hq) as (Ht & _ & Hk').
    { ords. lia. }
    rewrite Hk'. cbn [eng inq]. rewrite pads_sync_timer. cbn [timer set_timer].
    rewrite timer_eq_small by lia. auto. }
  destruct (Case "Z" b) eqn:EZ.
  { pose proof (Case_In _ _ EZ) as Hin. vm_compute in Hin.
    destruct (tick_sleep cfg s e b rest Hz Hq) as (Ht & _ & Hk').
    { ords. lia. }
    rewrite Hk'. cbn [eng inq]. rewrite pads_sync_timer. cbn [timer set_timer].
    unfold sleep_cyc. rewrite EZ. rewrite timer_eq_small by lia. auto. }
  destruct (Case "z" b) eqn:Ez.
  { pose proof (Case_In _ _ Ez) as Hin. vm_compute in Hin.
    destruct (tick_sleep cfg s e b rest Hz Hq) as (Ht & _ & Hk').
    { ords. lia. }
    rewrite Hk'. cbn [eng inq]. rewrite pads_sync_timer. cbn [timer set_timer].
    unfold sleep_cyc. rewrite EZ. rewrite timer_eq_small by lia. auto. }
  destruct (known_classes b Hk) as [H | [H | [H | [H | [H | [H | H]]]]]];
    try congruence;
    apply Case_In in H; vm_compute in H.
  - destruct (tick_reset cfg s e b rest Hz Hq) as (Ht & _ & Hk');
      [ords; lia |].
    rewrite Hk'. cbn [eng inq]. rewrite pads_sync_timer.
    cbn [timer set_srst_trst]. rewrite Hz. auto.
  - destruct (tick_sample_ready cfg s e b rest Hz Hq) as (Ht & _ & Hk');
      [ords; lia | exact Hs |].
    rewrite Hk'. cbn [eng inq]. rewrite pads_sync_timer. rewrite Hz. auto.
  - destruct (tick_blink cfg s e b rest Hz Hq) as (Ht & _ & Hk');
      [ords; lia |].
    rewrite Hk'. cbn [eng inq]. rewrite pads_sync_timer.
    cbn [timer set_blink]. rewrite Hz. auto.
  - destruct (tick_quit cfg s e b rest Hz Hq) as (Ht & _ & Hk');
      [ords; lia |].
    rewrite Hk'. cbn [eng inq]. rewrite pads_sync_timer. rewrite Hz. auto.
Qed.

(** X3.  A script of known commands found with the timer at zero, run with
    room in the sink throughout, is consumed completely, in order, in
    exactly the sum of its commands' costs: [period_cyc] ticks for each of
    '0'..'7', [1000 * us_cyc] for 'Z', [us_cyc] for 'z' and one tick for
    every other command.  The engine ends ready for the byte that follows. *)
Theorem script_timing
    (cfg : config) (ws : list Z) (s : sys) (rest : list Z) (es : list env) :
  1 <= period_cyc cfg -> 1 <= us_cyc cfg ->
  timer (eng s) = 0 -> inq s = ws ++ rest ->
  Forall (fun b => known b = true) ws ->
  Forall (fun e => sink_rdy e = true) es ->
  Z.of_nat (length es) = script_cost cfg ws ->
  consumed (trace cfg s es) = ws
  /\ inq (run cfg s es) = rest ++ arrivals es
  /\ timer (eng (run cfg s es)) = 0.
Proof.
  intros Hp Hu. revert s rest es.
  induction ws as [| b ws IH]; intros s rest es Hz Hq Hks Hss Hlen.
  - cbn in Hlen. destruct es; [| cbn in Hlen; lia].
    cbn. rewrite app_nil_r. auto.
  - inversion Hks as [| ? ? Hk Hks']; subst.
    pose proof (cost_pos cfg b Hp Hu) as Hc.
    pose proof (script_cost_nonneg cfg ws Hp Hu) as Hw.
    cbn [script_cost fold_right] in Hlen. fold (script_cost cfg ws) in Hlen.
    destruct es as [| e es]; [cbn in Hlen; lia |].
    inversion Hss as [| ? ? Hs Hss']; subst.
    cbn [length] in Hlen. rewrite Nat2Z.inj_succ in Hlen.
    destruct (tick_known cfg s e b (ws ++ rest) Hp Hu Hz Hq Hk Hs)
      as (Ht & Hi & Htm).
    assert (exists es1 es2, es = es1 ++ es2
                            /\ Z.of_nat (length es1) = cost cfg b - 1)
      as (es1 & es2 & -> & Hl1).
    { exists (firstn (Z.to_nat (cost cfg b - 1)) es),
             (skipn (Z.to_nat (cost cfg b - 1)) es).
      split; [symmetry; apply firstn_skipn |].
      rewrite firstn_length_le; lia. }
    apply Forall_app in Hss' as [Hss1 Hss2].
    rewrite length_app in Hlen.
    destruct (run_countdown cfg es1 (tick cfg s e))
      as (Hquiet & Htm1 & _ & Hi1 & _).
    { unfold timer_fits. rewrite Htm. pose proof (limit_le_pow cfg).
      unfold cost. unfold timer_limit in *.
      destruct (Case "01234567" b); [lia |].
      destruct (Case "Z" b); [lia |].
      destruct (Case "z" b); lia. }
    { lia. }
    destruct (IH (run cfg (tick cfg s e) es1) (rest ++ arrive e ++ arrivals es1)
                es2) as (Hcons & Hi2 & Htm2).
    { lia. }
    { rewrite Hi1, Hi. now rewrite <- !app_assoc. }
    { exact Hks'. }
    { exact Hss2. }
    { lia. }
    cbn [run trace]. rewrite run_app, trace_app.
    unfold consumed at 1. cbn [flat_map fst]. rewrite Ht. cbn [option_map].
    fold (consumed (trace cfg (tick cfg s e) es1
                    ++ trace cfg (run cfg (tick cfg s e) es1) es2)).
    rewrite consumed_app, (consumed_quiet _ Hquiet), Hcons.
    repeat split; [| exact Htm2].
    rewrite Hi2. change (arrivals (e :: ?l)) with (arrive e ++ arrivals l).
    rewrite arrivals_app. now rewrite <- !app_assoc.
Qed.

Lemma script_timing_witness :
  consumed (trace demo_cfg (demo_sys 0 [ord "5"; ord "R"; ord "z"; ord "Q"])
              (repeat (demo_env true true) 6))
  = [ord "5"; ord "R"; ord "z"]
  /\ inq (run demo_cfg (demo_sys 0 [ord "5"; ord "R"; ord "z"; ord "Q"])
            (repeat (demo_env true true) 6))
     = [ord "Q"].
Proof.
  destruct (script_timing demo_cfg [ord "5"; ord "R"; ord "z"]
              (demo_sys 0 [ord "5"; ord "R"; ord "z"; ord "Q"]) [ord "Q"]
              (repeat (demo_env true true) 6)) as (Hc & Hi & _).
  - vm_compute; discriminate.
  - vm_compute; discriminate.
  - reflexivity.
  - reflexivity.
  - repeat constructor.
  - repeat constructor.
  - reflexivity.
  - split; [exact Hc | exact Hi].
Defined.

(** ** The pace of TCK *)

(** X4.  Wherever in a run a '0'..'7' byte is consumed, none of the next
    [period_cyc - 1] ticks consumes or produces anything, and the six
    signals keep the values that command left: the next byte of any kind is
    consumed no sooner than [period_cyc] ticks after a '0'..'7' byte. *)
Theorem write_rate_limit
    (cfg : config) (s : sys) (e : env) (b : Z) (es : list env) :
  1 <= period_cyc cfg ->
  took s e = Some b -> Case "01234567" b = true ->
  Z.of_nat (length es) <= period_cyc cfg - 1 ->
  Forall quiet (trace cfg (tick cfg s e) es)
  /\ signals (eng (run cfg (tick cfg s e) es)) = signals (eng (tick cfg s e)).
Proof.
  intros Hp Ht Hb Hlen.
  pose proof (took_ready s e b Ht) as Hz.
  destruct (tick_io s e) as [_ Hhead]. specialize (Hhead b Ht).
  pose proof (Case_In _ _ Hb) as Hin. vm_compute in Hin.
  destruct (tick_write cfg s e b (tl (inq s)) Hz Hhead) as (_ & _ & Hk).
  { ords. lia. }
  assert (timer (eng (tick cfg s e)) = period_cyc cfg - 1) as Htm.
  { rewrite Hk. cbn [eng]. rewrite pads_sync_timer. cbn [timer set_timer].
    apply timer_eq_small. pose proof (limit_le_pow cfg).
    unfold timer_limit in *. lia. }
  destruct (run_countdown cfg es (tick cfg s e)) as (Hq & _ & Hs & _).
  - unfold timer_fits. rewrite Htm. pose proof (limit_le_pow cfg).
    unfold timer_limit in *. lia.
  - lia.
  - split; assumption.
Qed.

Lemma write_rate_limit_witness :
  1 <= period_cyc demo_cfg
  /\ Forall quiet
       (trace demo_cfg
          (tick demo_cfg (demo_sys 0 [ord "4"; ord "0"]) (demo_env true true))
          [demo_env true true; demo_env true true]).
Proof.
  split; [vm_compute; discriminate |].
  destruct (write_rate_limit demo_cfg (demo_sys 0 [ord "4"; ord "0"])
              (demo_env true true) (ord "4")
              [demo_env true true; demo_env true true]) as [Hq _].
  - vm_compute; discriminate.
  - reflexivity.
  - reflexivity.
  - vm_compute; discriminate.
  - exact Hq.
Defined.

(** ** A period of zero cycles *)

Lemma pow2_mod5 (n : nat) : (2 ^ Z.of_nat n) mod 5 <> 0.
Proof.
  induction n as [| n IH].
  - vm_compute. discriminate.
  - rewrite Nat2Z.inj_succ, Z.pow_succ_r by lia.
    rewrite <- Z.mul_mod_idemp_r by lia.
    pose proof (Z.mod_pos_bound (2 ^ Z.of_nat n) 5 ltac:(lia)) as Hb.
    assert ((2 ^ Z.of_nat n) mod 5 = 1 \/ (2 ^ Z.of_nat n) mod 5 = 2
            \/ (2 ^ Z.of_nat n) mod 5 = 3 \/ (2 ^ Z.of_nat n) mod 5 = 4)
      as [-> | [-> | [-> | ->]]] by lia; vm_compute; discriminate.
Qed.

(** With no cycle in a period, the range of the timer is sized by the long
    sleep alone, and is never a whole power of two. *)
Lemma zero_period_limit (cfg : config) :
  period_cyc cfg = 0 -> 1 <= us_cyc cfg ->
  timer_limit cfg < 2 ^ timer_width cfg.
Proof.
  intros Hp Hu. pose proof (limit_le_pow cfg) as Hle.
  assert (timer_limit cfg = 1000 * us_cyc cfg) as Hl
    by (unfold timer_limit; lia).
  destruct (Z.eq_dec (timer_limit cfg) (2 ^ timer_width cfg)) as [Heq |]; [| lia].
  exfalso. apply (pow2_mod5 (Z.to_nat (timer_width cfg))).
  rewrite Z2Nat.id by (unfold timer_width; apply Z.log2_up_nonneg).
  rewrite <- Heq, Hl.
  replace (1000 * us_cyc cfg) with (200 * us_cyc cfg * 5) by lia.
  apply Z.mod_mul. lia.
Qed.

(** X5.  When [period_cyc] is 0, a '0'..'7' byte consumed with the timer at
    zero still loads the three outputs, but arms the timer with the
    all-ones value of its width, above the declared range; the engine then
    ignores its input for that many ticks. *)
Theorem zero_period_stalls
    (cfg : config) (s : sys) (e : env) (b : Z) (rest : list Z)
    (es : list env) :
  period_cyc cfg = 0 -> 1 <= us_cyc cfg ->
  timer (eng s) = 0 -> inq s = b :: rest -> ord "0" <= b <= ord "7" ->
  Z.of_nat (length es) <= 2 ^ timer_width cfg - 1 ->
  timer (eng (tick cfg s e)) = 2 ^ timer_width cfg - 1
  /\ ~ timer_in_range cfg (eng (tick cfg s e))
  /\ Forall quiet (trace cfg (tick cfg s e) es)
  /\ inq (run cfg (tick cfg s e) es) = rest ++ arrive e ++ arrivals es.
Proof.
  intros Hp Hu Hz Hq Hb Hlen.
  pose proof (zero_period_limit cfg Hp Hu) as Hlim.
  assert (0 < 2 ^ timer_width cfg) as Hpos
    by (apply Z.pow_pos_nonneg; [lia | apply Z.log2_up_nonneg]).
  destruct (tick_write cfg s e b rest Hz Hq Hb) as (_ & _ & Hk).
  assert (timer (eng (tick cfg s e)) = 2 ^ timer_width cfg - 1) as Htm.
  { rewrite Hk. cbn [eng]. rewrite pads_sync_timer. cbn [timer set_timer].
    unfold timer_eq. rewrite Hp. symmetry.
    apply (Z.mod_unique _ _ (-1)); lia. }
  destruct (run_countdown cfg es (tick cfg s e)) as (Hquiet & _ & _ & Hi & _).
  { unfold timer_fits. lia. }
  { lia. }
  repeat split; try assumption.
  - unfold timer_in_range. lia.
  - rewrite Hi, Hk. cbn [inq]. now rewrite <- app_assoc.
Qed.

Lemma zero_period_stalls_witness :
  timer (eng (tick (build 48000000 100000 false) (reset [ord "1"])
                (demo_env true true))) = 65535
  /\ Forall quiet
       (trace (build 48000000 100000 false)
          (tick (build 48000000 100000 false) (reset [ord "1"])
             (demo_env true true))
          [demo_env true true; demo_env true true]).
Proof.
  destruct (zero_period_stalls (build 48000000 100000 false)
              (reset [ord "1"]) (demo_env true true) (ord "1") []
              [demo_env true true; demo_env true true])
    as (Htm & _ & Hq & _).
  - reflexivity.
  - vm_compute; discriminate.
  - reflexivity.
  - reflexivity.
  - vm_compute; split; discriminate.
  - vm_compute; discriminate.
  - split; [exact Htm | exact Hq].
Defined.

(** ** The cycle counts chosen by [build] *)

(** X6.  For a frequency of at least 1 kHz, [build] takes as period the
    whole number of clock cycles that fit the requested period: commands are
    paced no slower than asked for, and by less than one cycle faster.  The
    period is 0 exactly when the frequency exceeds the clock. *)
Theorem build_period_floor (sys_clk_freq frequency : Z) (srst : bool) :
  1 <= frequency -> 0 <= sys_clk_freq ->
  let p := period_cyc (build sys_clk_freq frequency srst) in
  p * (frequency * 1000) <= sys_clk_freq < (p + 1) * (frequency * 1000)
  /\ (p = 0 <-> sys_clk_freq < frequency * 1000).
Proof.
  intros Hf Hc p. subst p. cbn [build period_cyc].
  pose proof (Z.mul_div_le sys_clk_freq (frequency * 1000) ltac:(lia)) as Hlo.
  pose proof (Z.mul_succ_div_gt sys_clk_freq (frequency * 1000) ltac:(lia))
    as Hhi.
  pose proof (Z.div_pos sys_clk_freq (frequency * 1000) Hc ltac:(lia)) as H0.
  unfold Z.succ in Hhi. split; [split; nia |].
  split; [intros Hz; rewrite Hz in Hhi; lia |].
  intros Hlt. apply Z.div_small. lia.
Qed.

Lemma build_period_floor_witness :
  period_cyc (build 48000000 100 true) * (100 * 1000) <= 48000000
  /\ period_cyc (build 48000000 100 true) = 480.
Proof.
  destruct (build_period_floor 48000000 100 true) as [[Hlo _] _].
  - vm_compute; discriminate.
  - vm_compute; discriminate.
  - split; [exact Hlo | reflexivity].
Defined.

(** X7.  With a frequency between 1 kHz and the system clock, and a clock
    of at least 1 MHz, the configuration [build] hands to the engine keeps
    the timer within its declared range over every run from reset. *)
Theorem build_keeps_timer_in_range
    (sys_clk_freq frequency : Z) (srst : bool) (q : list Z) (es : list env) :
  1 <= frequency -> frequency * 1000 <= sys_clk_freq ->
  1000000 <= sys_clk_freq ->
  let cfg := build sys_clk_freq frequency srst in
  timer_in_range cfg (eng (run cfg (reset q) es)).
Proof.
  intros Hf Hc Hm cfg.
  assert (1 <= period_cyc cfg) as Hp
    by (subst cfg; cbn [build period_cyc];
        apply Z.div_le_lower_bound; lia).
  assert (1 <= us_cyc cfg) as Hu
    by (subst cfg; cbn [build us_cyc];
        apply Z.div_le_lower_bound; lia).
  apply run_timer_in_range; try assumption.
  unfold timer_in_range, timer_limit, reset. cbn [eng init timer]. lia.
Qed.

Lemma build_keeps_timer_in_range_witness :
  timer_in_range (build 48000000 100 true)
    (eng (run (build 48000000 100 true) (reset [ord "Z"; ord "3"])
            [demo_env true true; demo_env true true])).
Proof.
  apply (build_keeps_timer_in_range 48000000 100 true [ord "Z"; ord "3"]
           [demo_env true true; demo_env true true]);
    vm_compute; discriminate.
Defined.

(** ** The SRST pad *)






(** * The forwarding loops *)

Section Drive.

Context {call : Type}.
Variable resume : call -> outcome -> loop call.

Lemma drive_failed (os : list outcome) :
  drive resume Failed os = ([], Failed).
Proof. now destruct os. Qed.

Lemma drive_step (c : call) (o : outcome) (os : list outcome) :
  drive resume (Awaiting c) (o :: os)
  = ((c, o) :: fst (drive resume (resume c o) os),
     snd (drive resume (resume c o) os)).
Proof. cbn [drive]. now destruct (drive resume (resume c o) os). Qed.

(** A loop that fails exactly on [OtherError] asks for the outcomes up to
    the first such one, and has failed just when there is one. *)
Lemma drive_until_error (c : call) (os : list outcome) :
  (forall c' o, is_failed (resume c' o) = is_error o) ->
  map snd (fst (drive resume (Awaiting c) os)) = upto_error os
  /\ is_failed (snd (drive resume (Awaiting c) os)) = existsb is_error os.
Proof.
  intros Hres. revert c. induction os as [| o os IH]; intros c.
  - split; reflexivity.
  - rewrite drive_step. cbn [fst snd map upto_error existsb].
    specialize (Hres c o). destruct (resume c o) as [c' |].
    + destruct (is_error o); [discriminate Hres |].
      destruct (IH c') as [Hl Hf]. cbn [orb]. now rewrite Hl, Hf.
    + destruct (is_error o); [| discriminate Hres].
      rewrite drive_failed. split; reflexivity.
Qed.

End Drive.

(** X9.  Each forwarding loop goes on for as long as its awaits return or
    are cancelled, and ends at the first await that raises anything else:
    it has failed exactly when such an outcome occurred, and the awaits it
    made are those up to and including that one. *)
Theorem forwarders_end_only_on_error (os : list outcome) :
  (is_failed (snd (drive forward_out (Awaiting EndpointRecv) os))
   = existsb is_error os
   /\ map snd (fst (drive forward_out (Awaiting EndpointRecv) os))
      = upto_error os)
  /\ (is_failed (snd (drive forward_in (Awaiting IfaceRead) os))
      = existsb is_error os
      /\ map snd (fst (drive forward_in (Awaiting IfaceRead) os))
         = upto_error os).
Proof.
  split.
  - destruct (drive_until_error forward_out EndpointRecv os) as [Hl Hf];
      [| now split].
    intros c o. destruct o; [destruct c | |]; reflexivity.
  - destruct (drive_until_error forward_in IfaceRead os) as [Hl Hf];
      [| now split].
    intros c o. destruct o; [destruct c | |]; reflexivity.
Qed.

Lemma forward_out_chunks (st : loop out_call) (os : list outcome) :
  out_pending st ++ out_received (fst (drive forward_out st os))
  = out_written (fst (drive forward_out st os))
    ++ out_pending (snd (drive forward_out st os)).
Proof.
  revert st. induction os as [| o os IH]; intros st.
  - destruct st; cbn; now rewrite ?app_nil_r.
  - destruct st as [c |]; [| reflexivity].
    rewrite drive_step. cbn [fst snd].
    specialize (IH (forward_out c o)).
    unfold out_received, out_written in *. cbn [flat_map fst].
    destruct c as [| d |]; destruct o as [d' | |];
      cbn [forward_out out_pending app] in *;
      try rewrite drive_failed in *; cbn [fst snd flat_map out_pending] in *;
      try rewrite IH; try rewrite <- IH; reflexivity.
Qed.

(** X10.  [forward_out] hands to [iface.write] exactly the chunks
    [endpoint.recv] returned, in the order received and each once; only the
    chunk of a receive that has just returned may still be waiting.  A
    write that is cancelled or fails is not tried again. *)
Theorem forward_out_writes_what_it_received (os : list outcome) :
  out_received (fst (drive forward_out (Awaiting EndpointRecv) os))
  = out_written (fst (drive forward_out (Awaiting EndpointRecv) os))
    ++ out_pending (snd (drive forward_out (Awaiting EndpointRecv) os)).
Proof. exact (forward_out_chunks (Awaiting EndpointRecv) os). Qed.

Lemma forward_out_flush_count (st : loop out_call) (os : list outcome) :
  (out_flush_due st + out_write_done (fst (drive forward_out st os)))%nat
  = (out_flushes (fst (drive forward_out st os))
     + out_flush_due (snd (drive forward_out st os)))%nat.
Proof.
  revert st. induction os as [| o os IH]; intros st.
  - destruct st; cbn; lia.
  - destruct st as [c |]; [| reflexivity].
    rewrite drive_step. cbn [fst snd].
    specialize (IH (forward_out c o)).
    unfold out_write_done, out_flushes in *. cbn [filter fst].
    destruct c as [| d |]; destruct o as [d' | |];
      cbn [forward_out out_flush_due length] in *;
      try rewrite drive_failed in *;
      cbn [fst snd filter length out_flush_due] in *; lia.
Qed.

(** X11.  [forward_out] calls [iface.flush] once for every write that
    returned, and only then: the flushes called and the one still due add
    up to the writes that returned. *)
Theorem forward_out_flushes_each_write (os : list outcome) :
  out_write_done (fst (drive forward_out (Awaiting EndpointRecv) os))
  = (out_flushes (fst (drive forward_out (Awaiting EndpointRecv) os))
     + out_flush_due (snd (drive forward_out (Awaiting EndpointRecv) os)))%nat.
Proof. exact (forward_out_flush_count (Awaiting EndpointRecv) os). Qed.

Lemma forward_in_chunks (st : loop in_call) (os : list outcome) :
  in_pending st ++ in_received (fst (drive forward_in st os))
  = in_sent (fst (drive forward_in st os))
    ++ in_pending (snd (drive forward_in st os)).
Proof.
  revert st. induction os as [| o os IH]; intros st.
  - destruct st; cbn; now rewrite ?app_nil_r.
  - destruct st as [c |]; [| reflexivity].
    rewrite drive_step. cbn [fst snd].
    specialize (IH (forward_in c o)).
    unfold in_received, in_sent in *. cbn [flat_map fst].
    destruct c as [| d]; destruct o as [d' | |];
      cbn [forward_in in_pending app] in *;
      try rewrite drive_failed in *; cbn [fst snd flat_map in_pending] in *;
      try rewrite IH; try rewrite <- IH; reflexivity.
Qed.

(** X12.  [forward_in] hands to [endpoint.send] exactly the chunks
    [iface.read] returned, in the order read and each once; only the chunk
    of a read that has just returned may still be waiting. *)
Theorem forward_in_sends_what_it_read (os : list outcome) :
  in_received (fst (drive forward_in (Awaiting IfaceRead) os))
  = in_sent (fst (drive forward_in (Awaiting IfaceRead) os))
    ++ in_pending (snd (drive forward_in (Awaiting IfaceRead) os)).
Proof. exact (forward_in_chunks (Awaiting IfaceRead) os). Qed.

(** * How long a command can wait *)

(** X13.  A byte at the head of the stream waits exactly as long as the
    timer still has to run: during those ticks nothing is consumed or
    produced, and on the tick after them the byte is taken, provided it is a
    known command and, for a sample, the sink has room. *)
Theorem head_taken_when_timer_expires
    (cfg : config) (s : sys) (b : Z) (rest : list Z)
    (es : list env) (e' : env) :
  timer_fits cfg (eng s) -> inq s = b :: rest ->
  Z.of_nat (length es) = timer (eng s) -> acceptable b e' = true ->
  Forall quiet (trace cfg s es)
  /\ took (run cfg s es) e' = Some b
  /\ inq (tick cfg (run cfg s es) e') = rest ++ arrivals es ++ arrive e'.
Proof.
  intros Hfit Hq Hlen Ha.
  destruct (run_countdown cfg es s Hfit) as (Hquiet & Htm & _ & Hi & _);
    [lia |].
  assert (timer (eng (run cfg s es)) = 0) as Hz by lia.
  rewrite Hq in Hi. cbn [app] in Hi.
  pose proof (ready_takes (run cfg s es) e' b _ Hz Hi Ha) as Ht.
  repeat split; try assumption.
  unfold tick. cbn [inq]. rewrite Ht, Hi. cbn [tl].
  now rewrite <- app_assoc.
Qed.

Lemma head_taken_when_timer_expires_witness :
  timer_fits demo_cfg (eng (demo_sys 2 [ord "R"]))
  /\ Forall quiet (trace demo_cfg (demo_sys 2 [ord "R"])
                     [demo_env true true; demo_env true false])
  /\ took (run demo_cfg (demo_sys 2 [ord "R"])
             [demo_env true true; demo_env true false])
          (demo_env true true) = Some (ord "R").
Proof.
  assert (timer_fits demo_cfg (eng (demo_sys 2 [ord "R"]))) as Hfit
    by (vm_compute; split; [discriminate | reflexivity]).
  destruct (head_taken_when_timer_expires demo_cfg (demo_sys 2 [ord "R"])
              (ord "R") [] [demo_env true true; demo_env true false]
              (demo_env true true) Hfit eq_refl eq_refl eq_refl)
    as (Hq & Ht & _).
  split; [exact Hfit |]. split; [exact Hq | exact Ht].
Defined.
